(** * CascadeStudio: script execution worker and orchestrating service

    A shallow embedding of [server/workers/CascadeWorker.js] and
    [server/services/CascadeService.js], followed by the properties of
    the script-execution and worker-lifecycle subsystem.

    JavaScript numbers are IEEE doubles and the worker computes with
    [Math.sin], [Math.cos] and implicit coercions.  None of the
    properties below depends on the numeric value of a coordinate, so
    the arithmetic of the host is kept abstract in the class [JSHost];
    everything that decides a property (buffer lengths, triangle
    indices, maps, control flow, error paths) is concrete. *)

From Stdlib Require Import ZArith NArith QArith List String Ascii Lia Bool.
From stdpp Require Import base option list strings gmap pretty.
From Equations Require Import Equations.

Set Warnings "-register-all".

Local Open Scope string_scope.
Local Open Scope list_scope.
Local Open Scope Z_scope.

(** ** JavaScript values *)

Section Values.
Variable float : Type.

(** The values a script and the worker exchange.  [VRef r] is a
    reference to a shape object of the worker's heap (objects are
    mutable and shared, see [Translate]); an array is a value, and
    [VArrWith elems t] is an array on which a property [translation]
    has been stored, with value [t]; [VNative n] is a function
    or an object that holds functions -- a built-in of the host, a
    function of the worker, the global object -- which the model does
    not look into. *)
Inductive value : Type :=
| VUndef
| VNull
| VBool (b : bool)
| VNum (x : float)
| VStr (s : string)
| VArr (elems : list value)
| VArrWith (elems : list value) (translation : value)
| VRef (r : nat)
| VNative (name : string).
End Values.

Arguments VUndef {float}.
Arguments VNull {float}.
Arguments VBool {float} b.
Arguments VNum {float} x.
Arguments VStr {float} s.
Arguments VArr {float} elems.
Arguments VArrWith {float} elems translation.
Arguments VRef {float} r.
Arguments VNative {float} name.

(** ** Completions

    A JavaScript call either returns or throws an [Error]; the worker
    and the service only ever read the [message] of what they catch. *)

Inductive completion (A : Type) : Type :=
| Normal (a : A)
| Thrown (message : string).

Arguments Normal {A} a.
Arguments Thrown {A} message.

(** ** The host

    What the worker takes from its JavaScript host. *)
Class JSHost (float : Type) : Type := {
  (** the double a decimal literal denotes *)
  of_Q : Q → float;
  Math_PI : float;
  (** operators, with the coercions of the language *)
  js_neg : value float → value float;
  js_add : value float → value float → value float;
  js_mul : value float → value float → value float;
  js_div : value float → value float → value float;
  Math_sin : value float → value float;
  Math_cos : value float → value float;
  (** storing an element into a [Float32Array] *)
  to_float32 : value float → float;
  (** [ToBoolean] on a number: false on zeros and NaN *)
  num_truthy : float → bool;
  (** [ToString] on a number and on an object *)
  number_to_string : float → string;
  object_to_string : value float → string;
  (** a dynamic property read [o[k]], which raises on undefined and
      null *)
  get_member : value float → value float → completion (value float);
  (** the properties every plain object inherits from
      [Object.prototype]; [VUndef] where there is none *)
  object_prototype : string → value float;
  (** the properties of the global object a worker thread starts with *)
  host_global : gmap string (value float);
  (** the message of the [DataCloneError] that [postMessage] throws
      when the value it has to copy is this function or holds it *)
  data_clone_error : value float → string;
  (** [new Date(ms).toISOString()] *)
  toISOString : Z → string;
  (** the message of the [SyntaxError] that [new Function(code)] throws
      on a text, given as UTF-16 code units, that is no function body *)
  syntax_error : list N → option string
}.

Section Language.
Context {float : Type} `{JSHost float}.

(** An integer literal, or an integer the code computes. *)
Definition num (z : Z) : value float := VNum (of_Q (inject_Z z)).

Definition is_undefined (v : value float) : bool :=
  match v with VUndef => true | _ => false end.

(** [ToBoolean] *)
Definition truthy (v : value float) : bool :=
  match v with
  | VUndef | VNull => false
  | VBool b => b
  | VNum x => num_truthy x
  | VStr s => negb (String.eqb s "")
  | VArr _ | VArrWith _ _ | VRef _ | VNative _ => true
  end.

(** [a || b] *)
Definition js_or (a b : value float) : value float :=
  if truthy a then a else b.

(** [ToString] *)
Definition ToString (v : value float) : string :=
  match v with
  | VUndef => "undefined"
  | VNull => "null"
  | VBool true => "true"
  | VBool false => "false"
  | VNum x => number_to_string x
  | VStr s => s
  | VArr _ | VArrWith _ _ | VRef _ | VNative _ => object_to_string v
  end.

(** [args.join(sep)]: undefined and null elements print as the empty
    string. *)
Definition join_item (v : value float) : string :=
  match v with
  | VUndef | VNull => ""
  | _ => ToString v
  end.

Fixpoint join (sep : string) (args : list (value float)) : string :=
  match args with
  | [] => ""
  | [v] => join_item v
  | v :: rest => join_item v +:+ sep +:+ join sep rest
  end.

(** [v[k]] for a constant index [k] and a value [v] that is neither
    undefined nor null. *)
Definition element (v : value float) (k : nat) : value float :=
  match v with
  | VArr l | VArrWith l _ => nth k l VUndef
  | VStr s => match String.get k s with
              | Some c => VStr (String c EmptyString)
              | None => VUndef
              end
  | _ => VUndef
  end.

(** A JavaScript object used as a map; a read goes through the own
    properties and then through [Object.prototype]. *)
Definition get_property (o : gmap string (value float)) (name : string)
  : value float :=
  match o !! name with
  | Some v => v
  | None => object_prototype name
  end.
End Language.

(** ** The mesh exchanged between worker and service *)

Record meshData (float : Type) : Type := MeshData {
  vertices : option (list float);
  indices : option (list Z);
  normals : option (list float);
  shapeCount : nat
}.

Arguments MeshData {float}.
Arguments vertices {float}.
Arguments indices {float}.
Arguments normals {float}.
Arguments shapeCount {float}.

(** * The worker: [server/workers/CascadeWorker.js] *)

Module Worker.

Inductive level : Type := log | error | warn.

Record logEntry : Type := LogEntry {
  entry_level : level;
  entry_message : string
}.

Section WithHost.
Context {float : Type} `{JSHost float}.

Abbreviation value := (value float).

(** The shapes of the mocked kernel: [{type: 'Box', dimensions}],
    [{type: 'Sphere', radius}], [{type: 'Cylinder', radius, height}],
    [{type: 'Union', children}], [{type: 'Difference', base, tools}]. *)
Inductive shapeData : Type :=
| MakeBox (dimensions : value * value * value)
| MakeSphere (radius : value)
| MakeCylinder (radius height : value)
| MakeUnion (children : value)
| MakeDifference (base tools : value).

(** A shape object; [translation] is the property [Translate] adds,
    undefined until then. *)
Record shape : Type := Shape { data : shapeData; translation : value }.

(** The result of [executeCode]. *)
Inductive evaluation : Type :=
| Success (result : value) (shapes : list nat) (logs : list logEntry)
    (guiState : gmap string value)
| Failure (error : string) (logs : list logEntry).

Record importResult : Type := ImportResult {
  import_filename : string;
  import_success : bool;
  import_shapeId : string;
  import_message : string
}.

(** What the worker posts to its parent port. *)
Inductive posted : Type :=
| PostLog (l : level) (message : string)
| PostInit (success : bool)
| PostEvaluate (r : evaluation)
| PostMesh (mesh : meshData float) (count : nat)
| PostLoadFiles (results : list importResult)
| PostSTEP (content : string)
| PostError (error : string)
| PostReady (message : string).

(** The module-level state of one worker: [oc], [currentShapes],
    [currentGUIState]; the objects the shapes refer to; and the
    messages posted so far. *)
Record state : Type := State {
  oc : bool;
  heap : list shape;
  currentShapes : list nat;
  currentGUIState : gmap string value;
  outbox : list posted
}.

(** Worker code runs against that state and returns or throws. *)
Definition W (A : Type) : Type := state → completion A * state.

Definition ret {A} (a : A) : W A := λ w, (Normal a, w).
Definition throw {A} (message : string) : W A := λ w, (Thrown message, w).
Definition bind {A B} (m : W A) (k : A → W B) : W B :=
  λ w, match m w with
       | (Normal a, w') => k a w'
       | (Thrown e, w') => (Thrown e, w')
       end.

Notation "'let*' x ':=' m 'in' k" := (bind m (λ x, k))
  (at level 10, x name, m at level 200, k at level 200, only parsing).
Notation "m '>>' k" := (bind m (λ _, k))
  (at level 62, right associativity, only parsing).

(** [currentShapes.push(shape)] for a fresh object. *)
Definition push_shape (d : shapeData) : W value :=
  λ w, let r := length (heap w) in
       (Normal (VRef r),
        State (oc w) (heap w ++ [Shape d VUndef]) (currentShapes w ++ [r])
              (currentGUIState w) (outbox w)).

Definition postMessage (m : posted) : W unit :=
  λ w, (Normal tt,
        State (oc w) (heap w) (currentShapes w) (currentGUIState w)
              (outbox w ++ [m])).

(** *** [cascadeFunctions] *)

Definition not_initialized : string := "OpenCascade not initialized".

Definition Box (width height depth : value) : W value :=
  λ w, if oc w then push_shape (MakeBox (width, height, depth)) w
       else throw not_initialized w.

Definition Sphere (radius : value) : W value :=
  λ w, if oc w then push_shape (MakeSphere radius) w
       else throw not_initialized w.

Definition Cylinder (radius height : value) : W value :=
  λ w, if oc w then push_shape (MakeCylinder radius height) w
       else throw not_initialized w.

(** [target.translation = vector]: a store on [undefined] or [null]
    raises, on a primitive it is dropped, on a shape it updates the
    shared object; on a built-in it adds a property nothing reads, and
    on an array a property that shows in the array [Translate] returns
    ([stored] below). *)
Definition set_translation (vector target : value) : W unit :=
  match target with
  | VUndef =>
      throw "Cannot set properties of undefined (setting 'translation')"
  | VNull =>
      throw "Cannot set properties of null (setting 'translation')"
  | VRef r =>
      λ w, (Normal tt,
            State (oc w)
                  (alter (λ o, Shape (data o) vector) r (heap w))
                  (currentShapes w) (currentGUIState w) (outbox w))
  | _ => ret tt
  end.

Fixpoint forEach (f : value → W unit) (l : list value) : W unit :=
  match l with
  | [] => ret tt
  | v :: rest => f v >> forEach f rest
  end.

(** An element of the array once the [forEach] has passed: an element
    that is an array has the property. *)
Definition stored (vector v : value) : value :=
  match v with
  | VArr elems | VArrWith elems _ => VArrWith elems vector
  | _ => v
  end.

(** [return shapes] returns the array it was given, whose elements the
    loop has written to. *)
Definition Translate (vector shapes : value) : W value :=
  match shapes with
  | VArr l =>
      forEach (set_translation vector) l >> ret (VArr (stored vector <$> l))
  | VArrWith l t =>
      forEach (set_translation vector) l
        >> ret (VArrWith (stored vector <$> l) t)
  | _ => set_translation vector shapes >> ret shapes
  end.

Definition Union (shapes : value) : W value :=
  push_shape (MakeUnion shapes).

Definition Difference (base tools : value) : W value :=
  push_shape (MakeDifference base
                (match tools with
                 | VArr _ | VArrWith _ _ => tools
                 | _ => VArr [tools]
                 end)).

(** GUI controls *)

Definition Slider (name : string) (defaultValue min max : value) : W value :=
  λ w, let value := if is_undefined (get_property (currentGUIState w) name)
                    then defaultValue
                    else get_property (currentGUIState w) name in
       ret value w.

Definition Checkbox (name : string) (defaultValue : value) : W value :=
  λ w, let value := if is_undefined (get_property (currentGUIState w) name)
                    then defaultValue
                    else get_property (currentGUIState w) name in
       ret value w.

Definition TextInput (name : string) (defaultValue : value) : W value :=
  λ w, let value := if is_undefined (get_property (currentGUIState w) name)
                    then defaultValue
                    else get_property (currentGUIState w) name in
       ret value w.

Definition Dropdown (name : string) (options defaultIndex : value) : W value :=
  λ w, if is_undefined (get_property (currentGUIState w) name)
       then match get_member options (js_or defaultIndex (num 0)) with
            | Normal value => ret value w
            | Thrown e => throw e w
            end
       else ret (get_property (currentGUIState w) name) w.

(** *** Scripts

    [executeCode] receives the script as text and runs it with
    [new Function].  What the worker sees of a script is the sequence of
    calls it makes and what it does with each result, which is what a
    [script] records: it returns, throws, or calls one of the names
    bound for it and continues with the value returned.  A text that
    does not parse is a script that throws at once.  Loops that never
    end have no [script]; the service meets them as a timeout.

    [CallConsole] is [console.log(...)] and friends on the [console] of
    the context.  [CallHostConsole] is the console of the host, which
    the parameter [console] shadows and which stays reachable as
    [self.console].  [Read] is the script evaluating an identifier it
    does not declare itself, and continuing with what the identifier
    stands for.  An array a script passes to a call is an array of its
    own, or one a call has returned to it. *)

Inductive call : Type :=
| CallBox (width height depth : value)
| CallSphere (radius : value)
| CallCylinder (radius height : value)
| CallTranslate (vector shapes : value)
| CallUnion (shapes : value)
| CallDifference (base tools : value)
| CallSlider (name : string) (defaultValue min max : value)
| CallCheckbox (name : string) (defaultValue : value)
| CallTextInput (name : string) (defaultValue : value)
| CallDropdown (name : string) (options defaultIndex : value)
| CallConsole (l : level) (args : list value)
| CallHostConsole (l : level) (args : list value).

Inductive script : Type :=
| Return (result : value)
| Throw (message : string)
| Invoke (c : call) (k : value → script)
| Read (identifier : string) (k : value → script).

(** *** [createExecutionContext] *)

Inductive binding : Type :=
| FBox | FSphere | FCylinder | FTranslate | FUnion | FDifference
| FSlider | FCheckbox | FTextInput | FDropdown
| Console.

Definition cascadeFunctions : list (string * binding) :=
  [("Box", FBox); ("Sphere", FSphere); ("Cylinder", FCylinder);
   ("Translate", FTranslate); ("Union", FUnion); ("Difference", FDifference);
   ("Slider", FSlider); ("Checkbox", FCheckbox); ("TextInput", FTextInput);
   ("Dropdown", FDropdown)].

Definition createExecutionContext (guiState : gmap string value)
  : state → list (string * binding) * state :=
  λ w, (cascadeFunctions ++ [("console", Console)],
        State (oc w) (heap w) [] guiState (outbox w)).

(** The [console] of the context posts to the parent port. *)
Definition context_console (l : level) (args : list value) : W unit :=
  postMessage (PostLog l (join " " args)).

(** *** The scope of an evaluated script

    [new Function(...Object.keys(context), code)] makes the keys of the
    context the parameters of a function whose body is the script.  In
    that body a name is first a parameter, then the [arguments] object
    every function has, and then, the function being created in the
    global scope, a property of the global object of the worker, to
    which the module has added [self] and [importScripts]. *)

Definition worker_global : gmap string value :=
  <["importScripts" := VNative "importScripts"]>
    (<["self" := VNative "global"]> host_global).

Inductive resolved : Type :=
| Injected (key : string) (b : binding)
| Own
| Ambient (v : value).

Definition resolve (context : list (string * binding)) (identifier : string)
  : option resolved :=
  match list_find (λ kv, fst kv = identifier) context with
  | Some (_, (key, b)) => Some (Injected key b)
  | None =>
      if String.eqb identifier "arguments" then Some Own
      else Ambient <$> worker_global !! identifier
  end.

(** The keys of the context and what they are bound to, which are the
    same in every evaluation ([createExecutionContext_keys] below). *)
Definition bound_names : list (string * binding) :=
  cascadeFunctions ++ [("console", Console)].

(** What the identifier evaluates to: the function or object bound to
    the parameter, the [arguments] object, or the property of the
    global object. *)
Definition resolved_value (r : resolved) : value :=
  match r with
  | Injected key _ => VNative key
  | Own => VNative "arguments"
  | Ambient v => v
  end.

(** *** [executeCode] *)

(** One call of the script.  [logs] is the array local to
    [executeCode], which only the patched host console pushes to; the
    patch returns what [push] returns, the new length. *)
Definition invoke (c : call) (logs : list logEntry)
  : state → completion value * list logEntry * state :=
  λ w,
  let pure (m : W value) := let '(r, w') := m w in (r, logs, w') in
  match c with
  | CallBox width height depth => pure (Box width height depth)
  | CallSphere radius => pure (Sphere radius)
  | CallCylinder radius height => pure (Cylinder radius height)
  | CallTranslate vector shapes => pure (Translate vector shapes)
  | CallUnion shapes => pure (Union shapes)
  | CallDifference base tools => pure (Difference base tools)
  | CallSlider name defaultValue min max =>
      pure (Slider name defaultValue min max)
  | CallCheckbox name defaultValue => pure (Checkbox name defaultValue)
  | CallTextInput name defaultValue => pure (TextInput name defaultValue)
  | CallDropdown name options defaultIndex =>
      pure (Dropdown name options defaultIndex)
  | CallConsole l args =>
      pure (context_console l args >> ret VUndef)
  | CallHostConsole l args =>
      let logs := logs ++ [LogEntry l (join " " args)] in
      (Normal (num (Z.of_nat (length logs))), logs, w)
  end.

(** [func(...Object.values(context))] *)
Fixpoint call_function (code : script) (logs : list logEntry) (w : state)
  : completion value * list logEntry * state :=
  match code with
  | Return result => (Normal result, logs, w)
  | Throw message => (Thrown message, logs, w)
  | Invoke c k =>
      match invoke c logs w with
      | (Normal v, logs', w') => call_function (k v) logs' w'
      | (Thrown message, logs', w') => (Thrown message, logs', w')
      end
  | Read identifier k =>
      match resolve bound_names identifier with
      | Some r => call_function (k (resolved_value r)) logs w
      | None => (Thrown (identifier +:+ " is not defined"), logs, w)
      end
  end.

Definition executeCode (code : script) (guiState : option (gmap string value))
  : state → evaluation * state :=
  λ w,
  let '(context, w1) := createExecutionContext (default ∅ guiState) w in
  match call_function code [] w1 with
  | (Normal result, logs, w2) =>
      (Success result (currentShapes w2) logs (currentGUIState w2), w2)
  | (Thrown message, logs, w2) =>
      (Failure message [LogEntry error message], w2)
  end.

(** *** [generateMeshData] *)

Definition segments : Z := 16.

Definition box_vertices (dimensions : value * value * value) : list value :=
  let '(w, h, d) := dimensions in
  let nw := js_div (js_neg w) (num 2) in
  let nh := js_div (js_neg h) (num 2) in
  let nd := js_div (js_neg d) (num 2) in
  let pw := js_div w (num 2) in
  let ph := js_div h (num 2) in
  let pd := js_div d (num 2) in
  [ nw; nh; nd;  pw; nh; nd;  pw; ph; nd;  nw; ph; nd;
    nw; nh; pd;  pw; nh; pd;  pw; ph; pd;  nw; ph; pd ].

Definition box_indices : list Z :=
  [ 0;1;2; 0;2;3;
    4;7;6; 4;6;5;
    0;4;5; 0;5;1;
    2;6;7; 2;7;3;
    0;3;7; 0;7;4;
    1;5;6; 1;6;2 ].

(** The point the two sphere loops compute at [(i, j)]. *)
Definition sphere_point (radius : value) (i j : Z) : value * value * value :=
  let phi := js_mul (js_div (num i) (num segments)) (VNum Math_PI) in
  let theta :=
    js_mul (js_mul (js_div (num j) (num segments)) (num 2)) (VNum Math_PI) in
  let x := js_mul (js_mul radius (Math_sin phi)) (Math_cos theta) in
  let y := js_mul (js_mul radius (Math_sin phi)) (Math_sin theta) in
  let z := js_mul radius (Math_cos phi) in
  (x, y, z).

Definition sphere_vertices (radius : value) : list value :=
  flat_map (λ i, flat_map (λ j,
    let '(x, y, z) := sphere_point radius i j in [x; y; z])
    (seqZ 0 (segments + 1))) (seqZ 0 (segments + 1)).

Definition sphere_normals (radius : value) : list value :=
  flat_map (λ i, flat_map (λ j,
    let '(x, y, z) := sphere_point radius i j in
    [js_div x radius; js_div y radius; js_div z radius])
    (seqZ 0 (segments + 1))) (seqZ 0 (segments + 1)).

Definition sphere_indices : list Z :=
  flat_map (λ i, flat_map (λ j,
    let first := i * (segments + 1) + j in
    let second := first + segments + 1 in
    [first; second; first + 1; second; second + 1; first + 1])
    (seqZ 0 segments)) (seqZ 0 segments).

(** Vertices, indices and normals of one shape, before translation. *)
Definition shape_mesh (s : shape) : list value * list Z * list value :=
  match data s with
  | MakeBox dimensions =>
      let shapeVertices := box_vertices dimensions in
      (shapeVertices, box_indices,
       replicate (length shapeVertices) (num 0))
  | MakeSphere radius =>
      (sphere_vertices radius, sphere_indices, sphere_normals radius)
  | _ =>
      ([num 0; num 0; num 0; num 1; num 0; num 0;
        VNum (of_Q (1 # 2)); num 1; num 0],
       [0; 1; 2],
       [num 0; num 0; num 1; num 0; num 0; num 1; num 0; num 0; num 1])
  end.

(** The loop [for (i = 0; i < length; i += 3)] that adds the
    translation; on a length that is no multiple of three the stores
    past the end extend the array. *)
Fixpoint translate_vertices (t : value) (shapeVertices : list value)
  : list value :=
  match shapeVertices with
  | [] => []
  | [x] =>
      [js_add x (element t 0); js_add VUndef (element t 1);
       js_add VUndef (element t 2)]
  | [x; y] =>
      [js_add x (element t 0); js_add y (element t 1);
       js_add VUndef (element t 2)]
  | x :: y :: z :: rest =>
      js_add x (element t 0) :: js_add y (element t 1)
        :: js_add z (element t 2) :: translate_vertices t rest
  end.

(** The four variables the [forEach] over the shapes updates. *)
Record combined : Type := Combined {
  all_vertices : list value;
  all_indices : list Z;
  all_normals : list value;
  vertexOffset : Z
}.

(** One round of the [forEach].  [vertexOffset] grows by
    [shapeVertices.length / 3]; every shape has a multiple of three
    coordinates ([shape_vertices_triples] below), so the quotient is
    the integer written here. *)
Definition add_shape (c : combined) (s : shape) : combined :=
  let '(shapeVertices, shapeIndices, shapeNormals) := shape_mesh s in
  let shapeVertices :=
    if truthy (translation s)
    then translate_vertices (translation s) shapeVertices
    else shapeVertices in
  Combined (all_vertices c ++ shapeVertices)
           (all_indices c ++ map (λ index, index + vertexOffset c) shapeIndices)
           (all_normals c ++ shapeNormals)
           (vertexOffset c + Z.of_nat (length shapeVertices) / 3).

(** [new Uint32Array(indices)] keeps each index modulo 2^32. *)
Definition to_uint32 (z : Z) : Z := z mod 2 ^ 32.

Definition generateMeshData (shapes : list shape) (maxDeviation : value)
  : meshData float :=
  let maxDeviation :=
    if is_undefined maxDeviation then VNum (of_Q (1 # 10)) else maxDeviation in
  let c := fold_left add_shape shapes (Combined [] [] [] 0) in
  MeshData (Some (map to_float32 (all_vertices c)))
           (Some (map to_uint32 (all_indices c)))
           (Some (map to_float32 (all_normals c)))
           (length shapes).

(** *** Posting a value

    [parentPort.postMessage] copies its argument with the structured
    clone algorithm, which throws a [DataCloneError] at the first
    function it meets.  It walks the properties of an object in their
    order, the elements of an array before its other properties, and an
    object it has met already is not walked again. *)

(** The first value of a list that cannot be copied, if any, for a
    walk [visit] of one value that keeps the objects met in [seen]. *)
Definition first_in
  (visit : value → list nat → option value * list nat)
  : list value → list nat → option value * list nat :=
  fix each (l : list value) (seen : list nat) :=
    match l with
    | [] => (None, seen)
    | v :: rest =>
        match visit v seen with
        | (Some found, seen') => (Some found, seen')
        | (None, seen') => each rest seen'
        end
    end.

(** The properties of a shape object, in the order they were added. *)
Definition shape_properties (s : shape) : list value :=
  match data s with
  | MakeBox (width, height, depth) => [VArr [width; height; depth]]
  | MakeSphere radius => [radius]
  | MakeCylinder radius height => [radius; height]
  | MakeUnion children => [children]
  | MakeDifference base tools => [base; tools]
  end ++ [translation s].

(** The walk; [depth] bounds how many objects are entered one inside
    the other, which is never more than there are objects. *)
Fixpoint first_function (heap : list shape) (depth : nat)
  : value → list nat → option value * list nat :=
  fix visit (v : value) (seen : list nat) :=
    match v with
    | VNative _ => (Some v, seen)
    | VArr elems => first_in visit elems seen
    | VArrWith elems t =>
        match first_in visit elems seen with
        | (Some found, seen') => (Some found, seen')
        | (None, seen') => visit t seen'
        end
    | VRef r =>
        if bool_decide (r ∈ seen) then (None, seen)
        else match depth, heap !! r with
             | S depth', Some s =>
                 first_in (first_function heap depth')
                          (shape_properties s) (r :: seen)
             | _, _ => (None, seen)
             end
    | _ => (None, seen)
    end.

(** What [postMessage] throws on [{type: 'Evaluate', ...result}], if it
    throws.  A failed evaluation holds texts only.  (The GUI state has
    come in a message itself and holds no function; its values are
    walked last, as they are the last property.) *)
Definition clone_failure (result : evaluation) (w : state) : option string :=
  match result with
  | Success result shapes _ guiState =>
      data_clone_error <$>
        (first_in (first_function (heap w) (length (heap w)))
           (result :: (VRef <$> shapes) ++ (snd <$> map_to_list guiState))
           []).1
  | Failure _ _ => None
  end.

(** *** The message handler *)

Inductive request : Type :=
| Init
| Evaluate (code : script) (GUIState : option (gmap string value))
| CombineAndRenderShapes (maxDeviation : value)
| LoadFiles (files : list (string * string))
| SaveShapeSTEP
| Other (type : string).

Definition initializeOpenCascade : state → bool * state :=
  λ w, (true,
        State true (heap w) (currentShapes w) (currentGUIState w) (outbox w)).

(** The objects [currentShapes] refers to, as they are now. *)
Definition current_shapes (w : state) : list shape :=
  omap (λ r, heap w !! r) (currentShapes w).

Definition LF : string := String (ascii_of_nat 10) EmptyString.

Definition stepContent (now : Z) : string :=
  "ISO-10303-21;" +:+ LF +:+
  "HEADER;" +:+ LF +:+
  "FILE_DESCRIPTION(('CascadeStudio Generated STEP File'),'2;1');" +:+ LF +:+
  "FILE_NAME('export.step','" +:+ toISOString now +:+
  "',('CascadeStudio'),('CascadeStudio API'),'CascadeStudio','CascadeStudio','');"
    +:+ LF +:+
  "FILE_SCHEMA(('AUTOMOTIVE_DESIGN'));" +:+ LF +:+
  "ENDSEC;" +:+ LF +:+
  "DATA;" +:+ LF +:+
  "#1 = CARTESIAN_POINT('Origin',(0.,0.,0.));" +:+ LF +:+
  "ENDSEC;" +:+ LF +:+
  "END-ISO-10303-21;".

Definition post (m : posted) (w : state) : state :=
  State (oc w) (heap w) (currentShapes w) (currentGUIState w) (outbox w ++ [m]).

(** [parentPort.on('message', ...)]; [now] is what [Date.now()] gives
    while the message is handled.  What a branch throws is caught and
    posted as an error: on the requests of the service that is the
    answer to an evaluation that cannot be copied. *)
Definition on_message (now : Z) (message : request) (w : state) : state :=
  match message with
  | Init =>
      let '(initialized, w') := initializeOpenCascade w in
      post (PostInit initialized) w'
  | Evaluate code GUIState =>
      let '(result, w') := executeCode code GUIState w in
      match clone_failure result w' with
      | None => post (PostEvaluate result) w'
      | Some message => post (PostError message) w'
      end
  | CombineAndRenderShapes maxDeviation =>
      let meshData := generateMeshData (current_shapes w) maxDeviation in
      post (PostMesh meshData (length (currentShapes w))) w
  | LoadFiles files =>
      let importResults :=
        map (λ file : string * string,
               ImportResult (fst file) true
                 ("imported_" +:+ pretty now +:+ "_" +:+ fst file)
                 ("Successfully imported " +:+ fst file)) files in
      post (PostLoadFiles importResults) w
  | SaveShapeSTEP =>
      post (PostSTEP (stepContent now)) w
  | Other type =>
      post (PostError ("Unknown message type: " +:+ type)) w
  end.

(** A worker as its module leaves it once loaded: the module-level
    [initializeOpenCascade()] has run and posted [ready]. *)
Definition started : state :=
  let '(success, w) := initializeOpenCascade (State false [] [] ∅ []) in
  if success
  then post (PostReady "CascadeStudio worker initialized successfully") w
  else post (PostError "Failed to initialize CascadeStudio worker") w.

End WithHost.
End Worker.

(** * The service: [server/services/CascadeService.js] *)

Module Service.

Record workerInfo : Type := WorkerInfo {
  worker : nat;
  id : string;
  createdAt : Z;
  busy : bool
}.

(** *** The scan of [validateScript]

    The text of a script is a sequence of UTF-16 code units. *)

Definition of_string (s : string) : list N :=
  N_of_ascii <$> list_ascii_of_string s.

(** The class [\s] of a regular expression. *)
Definition is_space (c : N) : bool :=
  ((c =? 9) || (c =? 10) || (c =? 11) || (c =? 12) || (c =? 13) || (c =? 32)
   || (c =? 160) || (c =? 5760) || ((8192 <=? c) && (c <=? 8202))
   || (c =? 8232) || (c =? 8233) || (c =? 8239) || (c =? 8287)
   || (c =? 12288) || (c =? 65279))%N.



Fixpoint skip_spaces (t : list N) : list N :=
  match t with
  | c :: t' => if is_space c then skip_spaces t' else t
  | [] => []
  end.

(** [\s*\(]: the spaces are taken greedily, and no space is a
    parenthesis. *)
Definition open_paren (t : list N) : option (list N) :=
  match skip_spaces t with
  | c :: rest => if (c =? 40)%N then Some rest else None
  | [] => None
  end.












Section WithHost.
Context {float : Type} `{JSHost float}.

Abbreviation value := (value float).
Abbreviation posted := (@Worker.posted float).
Abbreviation request := (@Worker.request float).

(** The fields of a [CascadeService], and what it has done to its
    host: [threads] counts the [Worker] objects constructed, each named
    by its rank; [terminated] holds those [terminate()] was called on;
    [timers] the auto-cleanup timers set; [sent] the messages posted to
    workers; [now] is the clock [Date.now()] reads. *)
Record service : Type := ServiceState {
  activeWorkers : gmap string workerInfo;
  maxWorkers : Z;
  workerTimeout : Z;
  threads : nat;
  terminated : gset nat;
  timers : list (Z * string);
  sent : list (nat * request);
  now : Z
}.

(** [new CascadeService()] at time [t]. *)
Definition constructor (t : Z) : service :=
  ServiceState ∅ 4 30000 0 ∅ [] [] t.

(** What ends an [await this.sendWorkerMessage(...)]. *)
Inductive outcome : Type :=
| MessageEvent (response : posted)
| ErrorEvent (message : string)
| TimedOut.

(** What happens while an operation is suspended: time passes, the
    auto-cleanup timer of its worker may fire, and the wait ends. *)
Record event : Type := Event {
  elapsed : Z;
  cleanup_fired : bool;
  ending : outcome
}.

(** Service code runs against the service and the events still to
    come, and returns or throws. *)
Definition Op (A : Type) : Type :=
  service * list event → completion A * (service * list event).

Definition ret {A} (a : A) : Op A := λ s, (Normal a, s).
Definition throw {A} (message : string) : Op A := λ s, (Thrown message, s).
Definition bind {A B} (m : Op A) (k : A → Op B) : Op B :=
  λ s, match m s with
       | (Normal a, s') => k a s'
       | (Thrown e, s') => (Thrown e, s')
       end.

(** [try { body } finally { cleanup }], for a [cleanup] that does not
    throw. *)
Definition try_finally {A} (body : Op A) (cleanup : service → service) : Op A :=
  λ s, let '(r, (sv, events)) := body s in (r, (cleanup sv, events)).

Notation "'let*' x ':=' m 'in' k" := (bind m (λ x, k))
  (at level 10, x name, m at level 200, k at level 200, only parsing).
Notation "m '>>' k" := (bind m (λ _, k))
  (at level 62, right associativity, only parsing).

Definition update (f : service → service) : Op unit :=
  λ s, (Normal tt, (f (fst s), snd s)).

Definition Date_now : Op Z := λ s, (Normal (now (fst s)), s).

(** *** [terminateWorker] *)

Definition terminateWorker (workerId : string) (sv : service) : service :=
  match activeWorkers sv !! workerId with
  | Some workerInfo =>
      ServiceState (delete workerId (activeWorkers sv))
                   (maxWorkers sv) (workerTimeout sv) (threads sv)
                   (terminated sv ∪ {[ worker workerInfo ]})
                   (timers sv) (sent sv) (now sv)
  | None => sv
  end.

(** *** [cleanup] *)

Definition cleanup (sv : service) : service :=
  ServiceState ∅ (maxWorkers sv) (workerTimeout sv) (threads sv)
               (terminated sv
                  ∪ list_to_set (worker <$> (snd <$> map_to_list (activeWorkers sv))))
               (timers sv) (sent sv) (now sv).

(** *** [createWorker]

    [uuid] is what [uuidv4()] returns in this call. *)
Definition createWorker (uuid : string) : Op workerInfo :=
  λ s,
  let sv := fst s in
  let workerId := uuid in
  let thread := threads sv in
  let workerInfo := WorkerInfo thread workerId (now sv) false in
  (Normal workerInfo,
   (ServiceState (<[workerId := workerInfo]> (activeWorkers sv))
                 (maxWorkers sv) (workerTimeout sv) (S (threads sv))
                 (terminated sv)
                 (timers sv ++ [(now sv + workerTimeout sv, workerId)])
                 (sent sv) (now sv),
    snd s)).

(** [workerInfo.busy = true]; the object is the one the map holds. *)
Definition set_busy (workerInfo : workerInfo) (sv : service) : service :=
  ServiceState (alter (λ i, WorkerInfo (worker i) (id i) (createdAt i) true)
                      (id workerInfo) (activeWorkers sv))
               (maxWorkers sv) (workerTimeout sv) (threads sv)
               (terminated sv) (timers sv) (sent sv) (now sv).

(** *** [sendWorkerMessage] *)

(** [response.error], where the message has one. *)
Definition response_error (response : posted) : option string :=
  match response with
  | Worker.PostError e => Some e
  | Worker.PostEvaluate (Worker.Failure e _) => Some e
  | _ => None
  end.

Definition messageHandler (response : posted) : completion posted :=
  match response_error response with
  | Some e => if String.eqb e "" then Normal response else Thrown e
  | None => Normal response
  end.

Definition record_sent (workerInfo : workerInfo) (message : request)
  (sv : service) : service :=
  ServiceState (activeWorkers sv) (maxWorkers sv) (workerTimeout sv)
               (threads sv) (terminated sv) (timers sv)
               (sent sv ++ [(worker workerInfo, message)]) (now sv).

Definition advance (d : Z) (sv : service) : service :=
  ServiceState (activeWorkers sv) (maxWorkers sv) (workerTimeout sv)
               (threads sv) (terminated sv) (timers sv) (sent sv) (now sv + d).

(** The promise settles with the next event; when none is left the
    worker stays silent and the timeout fires.  No caller passes
    [timeout], so the timer is the default of ten seconds; whether it
    fires before an answer is what the event says. *)
Definition sendWorkerMessage (workerInfo : workerInfo) (message : request)
  : Op posted :=
  λ s,
  let sv := record_sent workerInfo message (fst s) in
  match snd s with
  | [] => (Thrown "Worker operation timed out", (sv, []))
  | e :: events =>
      let sv := advance (elapsed e) sv in
      let sv := if cleanup_fired e
                then terminateWorker (id workerInfo) sv else sv in
      match ending e with
      | MessageEvent response =>
          match messageHandler response with
          | Normal r => (Normal r, (sv, events))
          | Thrown m => (Thrown m, (sv, events))
          end
      | ErrorEvent m => (Thrown m, (sv, events))
      | TimedOut => (Thrown "Worker operation timed out", (sv, events))
      end
  end.

(** *** [meshToSTL] and [meshToOBJ] *)

Definition LF : string := String (ascii_of_nat 10) EmptyString.

(** An index the loops compute: [None] is the NaN that arithmetic on
    [undefined] gives. *)
Definition at_index {A} (l : list A) (i : option Z) : option A :=
  match i with
  | Some z => if (z <? 0)%Z then None else l !! Z.to_nat z
  | None => None
  end.

Definition times (i : option Z) (k : Z) : option Z := (λ z, z * k) <$> i.
Definition plus (i : option Z) (k : Z) : option Z := (λ z, z + k) <$> i.

(** [length > i] *)
Definition length_gt {A} (l : list A) (i : option Z) : bool :=
  match i with
  | Some z => (z <? Z.of_nat (length l))%Z
  | None => false
  end.

(** An element of a buffer inside a template literal. *)
Definition show_element (x : option float) : string :=
  match x with
  | Some x => number_to_string x
  | None => "undefined"
  end.

(** An index inside a template literal. *)
Definition show_index (i : option Z) : string :=
  match i with
  | Some z => pretty z
  | None => "NaN"
  end.

Definition stl_vertex (vertices : list float) (i : option Z) : string :=
  "      vertex " +:+ show_element (at_index vertices i) +:+ " "
    +:+ show_element (at_index vertices (plus i 1)) +:+ " "
    +:+ show_element (at_index vertices (plus i 2)) +:+ LF.

(** One round of the loop of [meshToSTL], on [indices[i]],
    [indices[i + 1]] and [indices[i + 2]]. *)
Definition stl_facet (vertices normals : list float) (a b c : option Z)
  : string :=
  let i1 := times a 3 in
  let i2 := times b 3 in
  let i3 := times c 3 in
  let normal :=
    if length_gt normals i1
    then (show_element (at_index normals i1),
          show_element (at_index normals (plus i1 1)),
          show_element (at_index normals (plus i1 2)))
    else ("0", "0", "1") in
  "  facet normal " +:+ normal.1.1 +:+ " " +:+ normal.1.2 +:+ " "
    +:+ normal.2 +:+ LF
  +:+ "    outer loop" +:+ LF
  +:+ stl_vertex vertices i1
  +:+ stl_vertex vertices i2
  +:+ stl_vertex vertices i3
  +:+ "    endloop" +:+ LF
  +:+ "  endfacet" +:+ LF.

(** [for (let i = 0; i < indices.length; i += 3)]; a last round on
    fewer than three indices reads [undefined] past the end. *)
Fixpoint stl_facets (vertices normals : list float) (indices : list Z)
  : string :=
  match indices with
  | [] => ""
  | a :: rest1 =>
      match rest1 with
      | [] => stl_facet vertices normals (Some a) None None
      | b :: rest2 =>
          match rest2 with
          | [] => stl_facet vertices normals (Some a) (Some b) None
          | c :: rest =>
              stl_facet vertices normals (Some a) (Some b) (Some c)
                +:+ stl_facets vertices normals rest
          end
      end
  end.

Definition meshToSTL (meshData : option (meshData float)) : completion string :=
  match meshData with
  | Some {| vertices := Some vertices; indices := Some indices;
            normals := normals |} =>
      let normals := default [] normals in
      Normal ("solid CascadeStudioExport" +:+ LF
              +:+ stl_facets vertices normals indices
              +:+ "endsolid CascadeStudioExport" +:+ LF)
  | _ => Thrown "Invalid mesh data for STL export"
  end.

(** The two loops of [meshToOBJ] over a buffer of coordinates. *)
Fixpoint obj_lines (prefix : string) (buffer : list float) : string :=
  match buffer with
  | [] => ""
  | x :: rest1 =>
      match rest1 with
      | [] => prefix +:+ " " +:+ number_to_string x
                +:+ " undefined undefined" +:+ LF
      | y :: rest2 =>
          match rest2 with
          | [] => prefix +:+ " " +:+ number_to_string x +:+ " "
                    +:+ number_to_string y +:+ " undefined" +:+ LF
          | z :: rest =>
              prefix +:+ " " +:+ number_to_string x +:+ " "
                +:+ number_to_string y +:+ " " +:+ number_to_string z +:+ LF
                +:+ obj_lines prefix rest
          end
      end
  end.

(** One face line, on [indices[i]], [indices[i + 1]] and
    [indices[i + 2]]. *)
Definition obj_face (with_normals : bool) (a b c : option Z) : string :=
  let v1 := show_index (plus a 1) in
  let v2 := show_index (plus b 1) in
  let v3 := show_index (plus c 1) in
  if with_normals
  then "f " +:+ v1 +:+ "//" +:+ v1 +:+ " " +:+ v2 +:+ "//" +:+ v2 +:+ " "
         +:+ v3 +:+ "//" +:+ v3 +:+ LF
  else "f " +:+ v1 +:+ " " +:+ v2 +:+ " " +:+ v3 +:+ LF.

Fixpoint obj_faces (with_normals : bool) (indices : list Z) : string :=
  match indices with
  | [] => ""
  | a :: rest1 =>
      match rest1 with
      | [] => obj_face with_normals (Some a) None None
      | b :: rest2 =>
          match rest2 with
          | [] => obj_face with_normals (Some a) (Some b) None
          | c :: rest =>
              obj_face with_normals (Some a) (Some b) (Some c)
                +:+ obj_faces with_normals rest
          end
      end
  end.

Definition meshToOBJ (meshData : option (meshData float)) : completion string :=
  match meshData with
  | Some {| vertices := Some vertices; indices := Some indices;
            normals := normals |} =>
      let normals := default [] normals in
      Normal ("# CascadeStudio Generated OBJ File" +:+ LF
              +:+ obj_lines "v" vertices
              +:+ (if (0 <? Z.of_nat (length normals))%Z
                   then obj_lines "vn" normals else "")
              +:+ obj_faces (0 <? Z.of_nat (length normals))%Z indices)
  | _ => Thrown "Invalid mesh data for OBJ export"
  end.

(** *** The operations *)

(** The properties the operations read off a response. *)
Definition response_logs (response : posted) : option (list Worker.logEntry) :=
  match response with
  | Worker.PostEvaluate (Worker.Success _ _ logs _) => Some logs
  | Worker.PostEvaluate (Worker.Failure _ logs) => Some logs
  | _ => None
  end.

Definition response_guiState (response : posted)
  : option (gmap string value) :=
  match response with
  | Worker.PostEvaluate (Worker.Success _ _ _ guiState) => Some guiState
  | _ => None
  end.

Definition response_meshData (response : posted) : option (meshData float) :=
  match response with
  | Worker.PostMesh meshData _ => Some meshData
  | _ => None
  end.

Definition response_shapeCount (response : posted) : option nat :=
  match response with
  | Worker.PostMesh _ count => Some count
  | _ => None
  end.

Definition response_content (response : posted) : option string :=
  match response with
  | Worker.PostSTEP content => Some content
  | _ => None
  end.

(** No message of the worker has a [shapeId] of its own. *)
Definition response_shapeId (response : posted) : option string := None.

Record executionResult : Type := ExecutionResult {
  result_success : bool;
  result_meshData : option (meshData float);
  result_logs : list Worker.logEntry;
  result_executionTime : Z;
  result_shapeCount : nat;
  result_guiState : gmap string value
}.

Definition default_resolution (meshResolution : value) : value :=
  if is_undefined meshResolution then VNum (of_Q (1 # 10)) else meshResolution.

Definition executeScript (code : Worker.script)
  (guiState : option (gmap string value)) (meshResolution : value)
  (uuid : string) : Op executionResult :=
  let guiState := default ∅ guiState in
  let meshResolution := default_resolution meshResolution in
  let* workerInfo := createWorker uuid in
  try_finally
    (update (set_busy workerInfo) >>
     let* startTime := Date_now in
     let* result :=
       sendWorkerMessage workerInfo (Worker.Evaluate code (Some guiState)) in
     let* meshResult :=
       sendWorkerMessage workerInfo (Worker.CombineAndRenderShapes meshResolution) in
     let* endTime := Date_now in
     ret (ExecutionResult true
            (response_meshData meshResult)
            (default [] (response_logs result))
            (endTime - startTime)
            (default 0%nat (response_shapeCount meshResult))
            (default guiState (response_guiState result))))
    (terminateWorker (id workerInfo)).

Record imported : Type := Imported {
  imported_success : bool;
  imported_shapeId : string;
  imported_message : string
}.

Definition importFile (filename content : string) (uuid : string)
  : Op imported :=
  let* workerInfo := createWorker uuid in
  try_finally
    (update (set_busy workerInfo) >>
     let* result :=
       sendWorkerMessage workerInfo (Worker.LoadFiles [(filename, content)]) in
     ret (Imported true
            (default filename (response_shapeId result))
            ("Successfully imported " +:+ filename)))
    (terminateWorker (id workerInfo)).

(** An exported file; the content of a STEP export is the whole
    response where the response has no [content]. *)
Record exported (C : Type) : Type := Exported {
  content : C;
  filename : string
}.
Arguments Exported {C}.

Definition exportSTEP (code : Worker.script)
  (guiState : option (gmap string value)) (meshResolution : value)
  (uuid : string) : Op (exported (string + posted)) :=
  let guiState := default ∅ guiState in
  let* workerInfo := createWorker uuid in
  try_finally
    (update (set_busy workerInfo) >>
     let* _ :=
       sendWorkerMessage workerInfo (Worker.Evaluate code (Some guiState)) in
     let* result := sendWorkerMessage workerInfo Worker.SaveShapeSTEP in
     ret (Exported
            (match response_content result with
             | Some c => if String.eqb c "" then inr result else inl c
             | None => inr result
             end)
            "export.step"))
    (terminateWorker (id workerInfo)).

(** A synchronous call that may throw, inside an operation. *)
Definition lift {A} (c : completion A) : Op A :=
  match c with
  | Normal a => ret a
  | Thrown e => throw e
  end.

Definition exportSTL (code : Worker.script)
  (guiState : option (gmap string value)) (meshResolution : value)
  (uuid : string) : Op (exported string) :=
  let guiState := default ∅ guiState in
  let meshResolution := default_resolution meshResolution in
  let* workerInfo := createWorker uuid in
  try_finally
    (update (set_busy workerInfo) >>
     let* _ :=
       sendWorkerMessage workerInfo (Worker.Evaluate code (Some guiState)) in
     let* meshResult :=
       sendWorkerMessage workerInfo (Worker.CombineAndRenderShapes meshResolution) in
     let* stlContent := lift (meshToSTL (response_meshData meshResult)) in
     ret (Exported stlContent "export.stl"))
    (terminateWorker (id workerInfo)).

Definition exportOBJ (code : Worker.script)
  (guiState : option (gmap string value)) (meshResolution : value)
  (uuid : string) : Op (exported string) :=
  let guiState := default ∅ guiState in
  let meshResolution := default_resolution meshResolution in
  let* workerInfo := createWorker uuid in
  try_finally
    (update (set_busy workerInfo) >>
     let* _ :=
       sendWorkerMessage workerInfo (Worker.Evaluate code (Some guiState)) in
     let* meshResult :=
       sendWorkerMessage workerInfo (Worker.CombineAndRenderShapes meshResolution) in
     let* objContent := lift (meshToOBJ (response_meshData meshResult)) in
     ret (Exported objContent "export.obj"))
    (terminateWorker (id workerInfo)).

(** *** [validateScript] *)




End WithHost.
End Service.

(** * The import route: [server/routes/files.js] *)

Module Routes.
Section WithHost.
Context {float : Type} `{JSHost float}.

(** An entry of [results]: [{filename, success: true, shapeId,
    message}] or [{filename, success: false, error}]. *)
Inductive fileResult : Type :=
| FileImported (filename shapeId message : string)
| FileFailed (filename error : string).

(** The bodies the handler sends: [{error, message}], or [{success:
    true, message, results, importedShapes}]. *)
Inductive body : Type :=
| ErrorBody (error message : string)
| ImportBody (message : string) (results : list fileResult)
    (importedShapes : list string).

(** [res.status(...).json(...)]; a response without [status] is a
    200. *)
Record response : Type := Response { status : Z; json : body }.

(** The loop [for (const file of req.files)], one [importFile] after
    the other; a file is its [originalname] and its [buffer], and
    [uuidv4 n] is what [uuidv4()] returns when the service creates its
    worker number [n]. *)
Fixpoint import_each (uuidv4 : nat → string) (files : list (string * string))
  (results : list fileResult) (importedShapes : list string)
  : @Service.Op float (list fileResult * list string) :=
  match files with
  | [] => Service.ret (results, importedShapes)
  | file :: rest =>
      λ s,
      match Service.importFile (fst file) (snd file)
              (uuidv4 (Service.threads (fst s))) s with
      | (Normal result, s') =>
          import_each uuidv4 rest
            (results ++ [FileImported (fst file)
                           (Service.imported_shapeId result)
                           (Service.imported_message result)])
            (importedShapes ++ [Service.imported_shapeId result]) s'
      | (Thrown message, s') =>
          import_each uuidv4 rest
            (results ++ [FileFailed (fst file) message])
            importedShapes s'
      end
  end.

(** [router.post('/import', ...)] on [req.files]; the handler sends
    its response and does not throw. *)
Definition import_route (uuidv4 : nat → string)
  (files : option (list (string * string)))
  : @Service.service float * list (@Service.event float)
    → response * (@Service.service float * list (@Service.event float)) :=
  λ s,
  match files with
  | None | Some [] =>
      (Response 400
         (ErrorBody "No files provided" "Please upload at least one file"), s)
  | Some files =>
      match import_each uuidv4 files [] [] s with
      | (Normal (results, importedShapes), s') =>
          (Response 200
             (ImportBody
                ("Processed " +:+ pretty (length files) +:+ " file(s)")
                results importedShapes), s')
      | (Thrown message, s') =>
          (Response 400 (ErrorBody "Import failed" message), s')
      end
  end.

End WithHost.
End Routes.

(** * The checks on uploaded files: [fileFilter] of
    [server/routes/files.js], [validateFileUpload] of
    [server/middleware/validation.js] *)

Module Uploads.

Definition allowedExtensions : list (list N) :=
  Service.of_string <$> [".step"; ".stp"; ".iges"; ".igs"; ".stl"].

(** [50 * 1024 * 1024] *)
Definition maxFileSize : Z := 50 * 1024 * 1024.

(** [String.prototype.toLowerCase] on a text of ASCII code units turns
    [A]..[Z] into [a]..[z]; on any other text it is what the host
    makes of it. *)
Definition is_ascii (c : N) : bool := (c <? 128)%N.

Definition lower (c : N) : N :=
  if ((65 <=? c) && (c <=? 90))%N then (c + 32)%N else c.

Definition toLowerCase (host_toLowerCase : list N → list N) (s : list N)
  : list N :=
  if forallb is_ascii s then lower <$> s else host_toLowerCase s.

(** [s.lastIndexOf(c)] for one code unit: the last index, or -1. *)
Fixpoint lastIndexOf (s : list N) (c : N) : Z :=
  match s with
  | [] => -1
  | x :: rest =>
      let i := lastIndexOf rest c in
      if 0 <=? i then i + 1 else if (x =? c)%N then 0 else -1
  end.

(** [s.substring(start)]: a negative start counts as 0, a start past
    the end gives the empty text. *)
Definition substring (s : list N) (start : Z) : list N :=
  drop (Z.to_nat start) s.

(** [file.originalname.toLowerCase().substring(
      file.originalname.lastIndexOf('.'))] *)
Definition fileExtension (host_toLowerCase : list N → list N)
  (originalname : list N) : list N :=
  substring (toLowerCase host_toLowerCase originalname)
            (lastIndexOf originalname 46).

(** A check lets the upload through or refuses it with a message. *)
Inductive verdict : Type :=
| Next
| Refused (message : list N).

Definition unsupported (fileExtension : list N) : list N :=
  Service.of_string "Unsupported file type: " ++ fileExtension
    ++ Service.of_string ". Allowed types: .step, .stp, .iges, .igs, .stl".

(** The [fileFilter] of the multer upload. *)
Definition fileFilter (host_toLowerCase : list N → list N)
  (originalname : list N) : verdict :=
  let fileExtension := fileExtension host_toLowerCase originalname in
  if bool_decide (fileExtension ∈ allowedExtensions) then Next
  else Refused (unsupported fileExtension).

(** The loop of [validateFileUpload]; a file is its [originalname] and
    its [size]. *)
Fixpoint check_files (host_toLowerCase : list N → list N)
  (files : list (list N * Z)) : verdict :=
  match files with
  | [] => Next
  | file :: rest =>
      let fileExtension := fileExtension host_toLowerCase (fst file) in
      if bool_decide (fileExtension ∈ allowedExtensions)
      then if maxFileSize <? snd file
           then Refused (Service.of_string "File " ++ fst file
                           ++ Service.of_string " exceeds maximum size of 50MB")
           else check_files host_toLowerCase rest
      else Refused (unsupported fileExtension)
  end.

Definition validateFileUpload (host_toLowerCase : list N → list N)
  (files : option (list (list N * Z))) : verdict :=
  match files with
  | None | Some [] => Refused (Service.of_string "No files provided for upload")
  | Some files => check_files host_toLowerCase files
  end.

End Uploads.

(** * A host to compute with

    The properties below hold for every host.  To run the definitions
    on examples a host is needed that computes: this one has exact
    rationals and NaN for numbers (no infinities: a division by zero is
    NaN), does not parse strings into numbers, knows the sine and
    cosine of zero only, starts a worker with a global object that
    holds [globalThis], [process], [eval] and [Function], and takes a
    text for a function body when its parentheses balance.
    No statement depends on these choices beyond the example it is run
    on. *)

Module Demo.

Definition number : Type := option Q.

Definition to_number (v : value number) : number :=
  match v with
  | VNum x => x
  | VBool true => Some 1%Q
  | VBool false | VNull => Some 0%Q
  | _ => None
  end.

Definition lift2 (f : Q → Q → Q) (a b : value number) : value number :=
  VNum (match to_number a, to_number b with
        | Some x, Some y => Some (Qred (f x y))
        | _, _ => None
        end).

Definition is_zero (x : number) : bool :=
  match x with Some q => Qeq_bool q 0 | None => false end.

Definition show (x : number) : string :=
  match x with
  | Some q =>
      if (Qden q =? 1)%positive then pretty (Qnum q)
      else pretty (Qnum q) +:+ "/" +:+ pretty (Z.pos (Qden q))
  | None => "NaN"
  end.

Definition member (o k : value number) : completion (value number) :=
  match o with
  | VUndef => Thrown "Cannot read properties of undefined"
  | VNull => Thrown "Cannot read properties of null"
  | VArr l | VArrWith l _ =>
      match to_number k with
      | Some q =>
          if (Qden q =? 1)%positive && (0 <=? Qnum q)
          then Normal (nth (Z.to_nat (Qnum q)) l VUndef)
          else Normal VUndef
      | None => Normal VUndef
      end
  | _ => Normal VUndef
  end.

Definition prototype (name : string) : value number :=
  if bool_decide (name ∈ ["constructor"; "hasOwnProperty"; "isPrototypeOf";
                          "propertyIsEnumerable"; "toLocaleString";
                          "toString"; "valueOf"])
  then VNative name else VUndef.

Fixpoint balanced (depth : nat) (code : list N) : bool :=
  match code with
  | [] => bool_decide (depth = 0%nat)
  | c :: rest =>
      if (c =? 40)%N then balanced (S depth) rest
      else if (c =? 41)%N
           then match depth with
                | O => false
                | S d => balanced d rest
                end
           else balanced depth rest
  end.

(** Some of what the global object of a Node.js worker thread holds. *)
Definition ambient : gmap string (value number) :=
  <["globalThis" := VNative "global"]>
    (<["process" := VNative "process"]>
       (<["eval" := VNative "eval"]>
          (<["Function" := VNative "Function"]> ∅))).

(** A function or an object as an error message shows it. *)
Definition shown (v : value number) : string :=
  match v with
  | VNative n => "function " +:+ n +:+ "() { [native code] }"
  | _ => "[object Object]"
  end.

#[global] Instance host : JSHost number := {|
  of_Q := Some;
  Math_PI := Some (355 # 113)%Q;
  js_neg := λ v, VNum (Qopp <$> to_number v);
  js_add := lift2 Qplus;
  js_mul := lift2 Qmult;
  js_div := λ a b, if is_zero (to_number b) then VNum None
                   else lift2 Qdiv a b;
  Math_sin := λ v, VNum (if is_zero (to_number v) then Some 0%Q else None);
  Math_cos := λ v, VNum (if is_zero (to_number v) then Some 1%Q else None);
  to_float32 := to_number;
  num_truthy := λ x, match x with
                     | Some q => negb (Qeq_bool q 0)
                     | None => false
                     end;
  number_to_string := show;
  object_to_string := λ _, "[object Object]";
  get_member := member;
  object_prototype := prototype;
  host_global := ambient;
  data_clone_error := λ v, shown v +:+ " could not be cloned.";
  toISOString := pretty;
  syntax_error := λ code,
    if balanced 0 code then None else Some "Unexpected token"
|}.

(** [let size = Slider("Size", 10, 5, 20); Box(size, size, size);] *)
Definition sized_box : @Worker.script number :=
  Worker.Invoke (Worker.CallSlider "Size" (num 10) (num 5) (num 20)) (λ size,
  Worker.Invoke (Worker.CallBox size size size) (λ _,
  Worker.Return VUndef)).

(** [self.console.log("before"); console.warn("posted");
    throw new Error("boom");] *)
Definition logging_then_throwing : @Worker.script number :=
  Worker.Invoke (Worker.CallHostConsole Worker.log [VStr "before"]) (λ _,
  Worker.Invoke (Worker.CallConsole Worker.warn [VStr "posted"]) (λ _,
  Worker.Throw "boom")).


(** A service on which four workers are live. *)
Definition four_workers : @Service.service number :=
  let acquire uuid (s : @Service.service number * list (@Service.event number)) :=
    (Service.createWorker uuid s).2 in
  (acquire "w4" (acquire "w3" (acquire "w2" (acquire "w1"
     (Service.constructor 0, []))))).1.

(** One vertex, and a triangle that names the vertices 0, 1 and 7. *)
Definition dangling : meshData number :=
  MeshData (Some [Some 0%Q; Some 0%Q; Some 0%Q]) (Some [0; 1; 7]) None 1.

End Demo.

(** * Properties of the worker *)

Section WorkerProperties.
Context {float : Type} `{JSHost float}.

Implicit Types (w : @Worker.state float) (s : @Worker.shape float).
Implicit Types (c : @Worker.combined float) (v t : value float).

(** ** Tessellation *)

Lemma box_vertices_length (dimensions : value float * value float * value float) :
  length (Worker.box_vertices dimensions) = 24%nat.
Proof. by destruct dimensions as [[? ?] ?]. Qed.

Lemma sphere_vertices_length v :
  length (Worker.sphere_vertices v) = 867%nat.
Proof. reflexivity. Qed.

Lemma sphere_normals_length v :
  length (Worker.sphere_normals v) = 867%nat.
Proof. reflexivity. Qed.

Lemma sphere_indices_bound :
  Forall (λ i, 0 ≤ i < 289) Worker.sphere_indices.
Proof.
  apply Forall_forall. intros i Hi.
  assert (Hall : forallb (λ i, (0 <=? i) && (i <? 289)) Worker.sphere_indices = true)
    by (vm_compute; reflexivity).
  rewrite forallb_forall in Hall.
  apply list_elem_of_In, Hall in Hi. lia.
Qed.

Lemma box_indices_bound :
  Forall (λ i, 0 ≤ i < 8) Worker.box_indices.
Proof. unfold Worker.box_indices. repeat constructor; lia. Qed.

(** The translation loop keeps the length of a buffer of whole
    triples. *)
Lemma translate_vertices_length t (k : nat) (l : list (value float)) :
  length l = (3 * k)%nat →
  length (Worker.translate_vertices t l) = (3 * k)%nat.
Proof.
  revert l. induction k as [|k IH]; intros l Hl.
  - destruct l; [reflexivity | discriminate].
  - destruct l as [|x [|y [|z rest]]]; simpl in Hl; try lia.
    cbn [Worker.translate_vertices length].
    rewrite (IH rest) by lia. lia.
Qed.

(** Every shape contributes whole triples of coordinates, as many
    normals, and indices into its own vertices. *)
Lemma shape_mesh_spec s :
  ∃ k : nat,
    length (Worker.shape_mesh s).1.1 = (3 * k)%nat ∧
    length (Worker.shape_mesh s).2 = (3 * k)%nat ∧
    Forall (λ i, 0 ≤ i < Z.of_nat k) (Worker.shape_mesh s).1.2.
Proof.
  unfold Worker.shape_mesh. destruct (Worker.data s) as [d|r|r h|ch|b tl].
  - exists 8%nat. cbn [fst snd]. rewrite length_replicate, box_vertices_length.
    split; [reflexivity|split; [reflexivity|]]. apply box_indices_bound.
  - exists 289%nat. cbn [fst snd].
    rewrite sphere_vertices_length, sphere_normals_length.
    split; [reflexivity|split; [reflexivity|]]. apply sphere_indices_bound.
  - exists 3%nat. cbn. split; [reflexivity|split; [reflexivity|]].
    repeat constructor; lia.
  - exists 3%nat. cbn. split; [reflexivity|split; [reflexivity|]].
    repeat constructor; lia.
  - exists 3%nat. cbn. split; [reflexivity|split; [reflexivity|]].
    repeat constructor; lia.
Qed.

Lemma shape_vertices_triples s :
  ∃ k : nat, length (Worker.shape_mesh s).1.1 = (3 * k)%nat.
Proof. destruct (shape_mesh_spec s) as (k & ? & _). eauto. Qed.

(** What the [forEach] of [generateMeshData] maintains. *)
Definition consistent c : Prop :=
  0 ≤ Worker.vertexOffset c ∧
  Z.of_nat (length (Worker.all_vertices c)) = 3 * Worker.vertexOffset c ∧
  length (Worker.all_normals c) = length (Worker.all_vertices c) ∧
  Forall (λ i, 0 ≤ i < Worker.vertexOffset c) (Worker.all_indices c).

Lemma add_shape_consistent c s :
  consistent c → consistent (Worker.add_shape c s).
Proof.
  intros (Hoff & Hlen & Hnorm & Hidx).
  destruct (shape_mesh_spec s) as (k & Hv & Hn & Hi).
  unfold Worker.add_shape.
  destruct (Worker.shape_mesh s) as [[sv si] sn]. cbn [fst snd] in *.
  set (sv' := if truthy (Worker.translation s)
              then Worker.translate_vertices (Worker.translation s) sv else sv).
  assert (Hsv' : length sv' = (3 * k)%nat).
  { subst sv'. destruct (truthy _); [by apply translate_vertices_length | done]. }
  assert (Hdiv : Z.of_nat (length sv') / 3 = Z.of_nat k).
  { rewrite Hsv'. rewrite Nat2Z.inj_mul, Z.mul_comm. by apply Z.div_mul. }
  unfold consistent. cbn [Worker.vertexOffset Worker.all_vertices
    Worker.all_normals Worker.all_indices].
  rewrite Hdiv, !length_app, Hsv', Hn. split_and!; try lia.
  apply Forall_app; split.
  - eapply Forall_impl; [exact Hidx|]. cbn. intros; lia.
  - apply Forall_map. eapply Forall_impl; [exact Hi|]. cbn. intros; lia.
Qed.

Lemma fold_add_shape_consistent (shapes : list (@Worker.shape float)) c :
  consistent c → consistent (fold_left Worker.add_shape shapes c).
Proof.
  revert c. induction shapes as [|s shapes IH]; intros c Hc; [done|].
  cbn [fold_left]. apply IH. by apply add_shape_consistent.
Qed.

Lemma to_uint32_bound (i n : Z) : 0 ≤ i < n → 0 ≤ Worker.to_uint32 i < n.
Proof.
  intros Hi. unfold Worker.to_uint32.
  assert (0 ≤ i mod 2 ^ 32 ≤ i); [|lia].
  split; [apply Z.mod_pos_bound; lia | apply Z.mod_le; lia].
Qed.

(** C7. The mesh [generateMeshData] produces for any list of shapes has
    every index strictly below the vertex count (a third of the length
    of the vertex buffer) and as many normals as vertex coordinates. *)
Theorem generateMeshData_invariant
  (shapes : list (@Worker.shape float)) (maxDeviation : value float) :
  ∃ (vs : list float) (ixs : list Z) (ns : list float),
    Worker.generateMeshData shapes maxDeviation
      = MeshData (Some vs) (Some ixs) (Some ns) (length shapes) ∧
    Forall (λ i, 0 ≤ i < Z.of_nat (length vs) / 3) ixs ∧
    length ns = length vs.
Proof.
  unfold Worker.generateMeshData.
  pose proof (fold_add_shape_consistent shapes (Worker.Combined [] [] [] 0))
    as (Hoff & Hlen & Hnorm & Hidx).
  { unfold consistent; cbn. split_and!; [lia | lia | done | constructor]. }
  eexists _, _, _. split; [reflexivity|].
  rewrite !length_map. split; [|done].
  rewrite Hlen, Z.mul_comm, Z.div_mul by lia.
  apply Forall_map. eapply Forall_impl; [exact Hidx|].
  intros i Hi. by apply to_uint32_bound.
Qed.

(** C10. The mesh does not depend on [maxDeviation]: neither
    [generateMeshData] nor the answer of the worker to
    [combineAndRenderShapes] changes with it. *)
Theorem generateMeshData_ignores_maxDeviation
  (shapes : list (@Worker.shape float)) (d1 d2 : value float) :
  Worker.generateMeshData shapes d1 = Worker.generateMeshData shapes d2 ∧
  ∀ now w,
    Worker.on_message now (Worker.CombineAndRenderShapes d1) w
    = Worker.on_message now (Worker.CombineAndRenderShapes d2) w.
Proof. split; reflexivity. Qed.

End WorkerProperties.

(** ** Evaluation *)

Section EvaluationProperties.
Context {float : Type} `{JSHost float}.

Implicit Types (w : @Worker.state float) (v : value float).
Implicit Types (code : @Worker.script float) (logs : list Worker.logEntry).






Lemma createExecutionContext_keys (guiState : gmap string (value float)) w :
  (Worker.createExecutionContext guiState w).1 = Worker.bound_names.
Proof. reflexivity. Qed.

Lemma resolve_unbound (identifier : string) :
  identifier ∉ Worker.bound_names.*1 →
  Worker.resolve Worker.bound_names identifier
  = if String.eqb identifier "arguments" then Some Worker.Own
    else Worker.Ambient <$> Worker.worker_global !! identifier.
Proof.
  intros Hnot. unfold Worker.resolve.
  destruct (list_find _ _) as [[i [k b]]|] eqn:Hfind; [|done].
  apply list_find_Some in Hfind as (Hi & Hk & _). cbn in Hk. subst k.
  exfalso. apply Hnot. apply list_elem_of_fmap. exists (identifier, b).
  split; [done|]. by eapply list_elem_of_lookup_2.
Qed.

(** C4, on the code.  The script [return <identifier>;] evaluated by
    the worker, for any identifier, any GUI state and any state of the
    worker.  The context binds the ten modelling functions and
    [console], and such a name gives what the context binds to it.  Any
    other name is not refused: [arguments] gives the arguments of the
    call, [self] the global object of the worker, [importScripts] the
    function the module installed, and every other property of the
    global object of the host gives its value; only a name the global
    object does not have is a fault.  So whatever the host keeps on its
    global object -- process control, [eval], [Function] -- is reached
    by the evaluated code under its own name, and all of it through
    [self]. *)
Theorem script_reaches_the_global_object
  (guiState : option (gmap string (value float))) w (identifier : string) :
  let returned v := Worker.Success v [] [] (default ∅ guiState) in
  let evaluated :=
    (Worker.executeCode (Worker.Read identifier Worker.Return) guiState w).1 in
  (Worker.createExecutionContext (default ∅ guiState) w).1.*1
    = ["Box"; "Sphere"; "Cylinder"; "Translate"; "Union"; "Difference";
       "Slider"; "Checkbox"; "TextInput"; "Dropdown"; "console"] ∧
  (identifier ∈ (Worker.createExecutionContext (default ∅ guiState) w).1.*1 →
     evaluated = returned (VNative identifier)) ∧
  (identifier = "arguments" → evaluated = returned (VNative "arguments")) ∧
  (identifier = "self" → evaluated = returned (VNative "global")) ∧
  (identifier = "importScripts" →
     evaluated = returned (VNative "importScripts")) ∧
  (identifier ∉ (Worker.createExecutionContext (default ∅ guiState) w).1.*1 →
   identifier ∉ ["arguments"; "self"; "importScripts"] →
     match host_global !! identifier with
     | Some v => evaluated = returned v
     | None =>
         evaluated
         = Worker.Failure (identifier +:+ " is not defined")
             [Worker.LogEntry Worker.error (identifier +:+ " is not defined")]
     end).
Proof.
  cbn zeta. rewrite createExecutionContext_keys.
  unfold Worker.executeCode. cbn [Worker.createExecutionContext fst snd].
  cbn [Worker.call_function].
  split_and!.
  - reflexivity.
  - intros Hin. cbn in Hin.
    repeat (apply elem_of_cons in Hin as [->|Hin]; [reflexivity|]).
    by apply elem_of_nil in Hin.
  - intros ->. reflexivity.
  - intros ->. rewrite resolve_unbound.
    + cbn. unfold Worker.worker_global.
      rewrite lookup_insert_ne by done. by rewrite lookup_insert_eq.
    + cbn. rewrite !not_elem_of_cons. split_and!; try done.
      apply not_elem_of_nil.
  - intros ->. rewrite resolve_unbound.
    + cbn. unfold Worker.worker_global. by rewrite lookup_insert_eq.
    + cbn. rewrite !not_elem_of_cons. split_and!; try done.
      apply not_elem_of_nil.
  - intros Hnot Hother. rewrite resolve_unbound by done.
    rewrite !not_elem_of_cons in Hother. destruct Hother as (Ha & Hs & Hi & _).
    destruct (String.eqb_spec identifier "arguments"); [done|].
    unfold Worker.worker_global. rewrite !lookup_insert_ne by done.
    by destruct (host_global !! identifier).
Qed.

End EvaluationProperties.

(** ** The scan of [validateScript] *)

Section ScanProperties.
Import Service.

(** A code unit a name can continue with, as far as the scan is
    concerned: neither a space nor the parenthesis. *)
Definition name_char (c : N) : bool := negb (is_space c) && negb (c =? 40)%N.






Lemma open_paren_name_char c u : name_char c = true → open_paren (c :: u) = None.
Proof.
  unfold name_char, open_paren. simpl. intros [Hs Hp]%andb_prop.
  apply negb_true_iff in Hs, Hp. by rewrite Hs, Hp.
Qed.


















(** *** What a call site is

    The regular expression as a reader takes it, written without the
    scan: one of the nineteen names, then white space or none, then an
    opening parenthesis, anywhere in the text.  White space is the
    class [\s] of ECMAScript: tab, line feed, vertical tab, form feed,
    carriage return, space, no-break space, the Unicode space
    separators, the line and paragraph separators and the byte order
    mark. *)












End ScanProperties.

(** * Properties of the service *)

Section ServiceProperties.
Context {float : Type} `{JSHost float}.

Implicit Types (sv : @Service.service float) (events : list (@Service.event float)).
Implicit Types (info : Service.workerInfo) (uuid : string) (thread : nat).

(** ** The life of a worker *)

(** The worker an operation created under [uuid] is either still in
    the map, or out of it and terminated. *)
Definition held uuid thread sv : Prop :=
  (∃ info, Service.activeWorkers sv !! uuid = Some info
           ∧ Service.worker info = thread) ∨
  (Service.activeWorkers sv !! uuid = None
   ∧ thread ∈ Service.terminated sv).

(** It is out of the map and terminated. *)
Definition released uuid thread sv : Prop :=
  Service.activeWorkers sv !! uuid = None ∧ thread ∈ Service.terminated sv.

Definition keeps {A} (I : @Service.service float → Prop) (m : Service.Op A) : Prop :=
  ∀ sv events, I sv → I (m (sv, events)).2.1.

Lemma keeps_ret {A} I (a : A) : keeps I (Service.ret a).
Proof. by intros sv events. Qed.

Lemma keeps_throw {A} I (e : string) : keeps I (@Service.throw float A e).
Proof. by intros sv events. Qed.

Lemma keeps_lift {A} I (c : completion A) : keeps I (Service.lift c).
Proof. destruct c; [apply keeps_ret | apply keeps_throw]. Qed.

Lemma keeps_Date_now I : keeps I Service.Date_now.
Proof. by intros sv events. Qed.

Lemma keeps_update I (f : @Service.service float → @Service.service float) :
  (∀ sv, I sv → I (f sv)) → keeps I (Service.update f).
Proof. intros Hf sv events. apply Hf. Qed.

Lemma keeps_bind {A B} I (m : Service.Op A) (k : A → Service.Op B) :
  keeps I m → (∀ a, keeps I (k a)) → keeps I (Service.bind m k).
Proof.
  intros Hm Hk sv events HI. unfold Service.bind.
  specialize (Hm sv events HI).
  destruct (m (sv, events)) as [[a|e] [sv' events']]; cbn in *; [|done].
  by apply Hk.
Qed.

Lemma terminateWorker_released uuid thread sv :
  held uuid thread sv → released uuid thread (Service.terminateWorker uuid sv).
Proof.
  unfold Service.terminateWorker.
  intros [(info & Hi & Ht)|[Hn Ht]].
  - rewrite Hi. split; cbn.
    + apply lookup_delete_eq.
    + set_solver.
  - by rewrite Hn.
Qed.

Lemma released_held uuid thread sv : released uuid thread sv → held uuid thread sv.
Proof. intros ?. by right. Qed.

Lemma set_busy_held info thread sv :
  held (Service.id info) thread sv →
  held (Service.id info) thread (Service.set_busy info sv).
Proof.
  intros [(i & Hi & Ht)|[Hn Ht]]; [left|right]; cbn.
  - eexists. rewrite lookup_alter_eq, Hi. cbn. done.
  - by rewrite lookup_alter_eq, Hn.
Qed.

Lemma sendWorkerMessage_held info (message : @Worker.request float) thread :
  keeps (held (Service.id info) thread) (Service.sendWorkerMessage info message).
Proof.
  intros sv events Hheld. unfold Service.sendWorkerMessage. cbn [fst snd].
  assert (Hsent : held (Service.id info) thread
                    (Service.record_sent info message sv)) by exact Hheld.
  destruct events as [|e events]; [exact Hsent|].
  set (sv1 := Service.advance _ _).
  assert (H1 : held (Service.id info) thread sv1) by exact Hsent.
  set (sv2 := if Service.cleanup_fired e then _ else _).
  assert (H2 : held (Service.id info) thread sv2).
  { subst sv2. destruct (Service.cleanup_fired e); [|done].
    by apply released_held, terminateWorker_released. }
  destruct (Service.ending e) as [response|m|]; try exact H2.
  by destruct (Service.messageHandler response).
Qed.

Lemma createWorker_held uuid sv events :
  ∃ info sv',
    Service.createWorker uuid (sv, events) = (Normal info, (sv', events)) ∧
    Service.id info = uuid ∧
    Service.worker info = Service.threads sv ∧
    held uuid (Service.threads sv) sv'.
Proof.
  eexists _, _. split; [reflexivity|]. cbn. split_and!; [done..|].
  left. eexists. split; [apply lookup_insert_eq | done].
Qed.

(** The shape all five operations share. *)
Lemma acquired_worker_released {A} (body : Service.workerInfo → Service.Op A)
  uuid sv events :
  (∀ info, keeps (held (Service.id info) (Service.worker info)) (body info)) →
  released uuid (Service.threads sv)
    (Service.bind (Service.createWorker uuid)
       (λ workerInfo,
          Service.try_finally (body workerInfo)
            (Service.terminateWorker (Service.id workerInfo)))
       (sv, events)).2.1.
Proof.
  intros Hbody. unfold Service.bind.
  destruct (createWorker_held uuid sv events) as (info & sv' & -> & Hid & Hw & Hh).
  unfold Service.try_finally.
  specialize (Hbody info sv' events). rewrite Hid, Hw in Hbody.
  specialize (Hbody Hh).
  destruct (body info (sv', events)) as [r [sv'' events'']]. cbn in *.
  rewrite Hid. by apply terminateWorker_released.
Qed.

Ltac keeps_step :=
  first [ apply keeps_ret | apply keeps_throw | apply keeps_lift
        | apply keeps_Date_now | apply sendWorkerMessage_held
        | apply keeps_update; intros ?; apply set_busy_held
        | apply keeps_bind; [|intros ?] ].

(** C3. Whatever the worker answers and whenever its timers fire --
    an answer, a script fault, an error event, a timeout -- each of the
    five operations leaves the worker it created out of [activeWorkers]
    and terminated. *)
Theorem operations_release_their_worker
  (code : @Worker.script float) (guiState : option (gmap string (value float)))
  (meshResolution : value float) (filename content : string)
  uuid sv events :
  released uuid (Service.threads sv)
    (Service.executeScript code guiState meshResolution uuid (sv, events)).2.1 ∧
  released uuid (Service.threads sv)
    (Service.importFile filename content uuid (sv, events)).2.1 ∧
  released uuid (Service.threads sv)
    (Service.exportSTEP code guiState meshResolution uuid (sv, events)).2.1 ∧
  released uuid (Service.threads sv)
    (Service.exportSTL code guiState meshResolution uuid (sv, events)).2.1 ∧
  released uuid (Service.threads sv)
    (Service.exportOBJ code guiState meshResolution uuid (sv, events)).2.1.
Proof.
  split_and!.
  - apply (acquired_worker_released (A := Service.executionResult)).
    intros info. repeat keeps_step.
  - apply (acquired_worker_released (A := Service.imported)).
    intros info. repeat keeps_step.
  - apply (acquired_worker_released (A := Service.exported _)).
    intros info. repeat keeps_step.
  - apply (acquired_worker_released (A := Service.exported _)).
    intros info. repeat keeps_step.
  - apply (acquired_worker_released (A := Service.exported _)).
    intros info. repeat keeps_step.
Qed.

(** C2, on the code.  [createWorker] does not read [maxWorkers]: with
    as many live workers as [maxWorkers] or more, a further acquisition
    returns a worker and the map grows by one. *)
Theorem createWorker_beyond_maxWorkers uuid sv events :
  Service.activeWorkers sv !! uuid = None →
  Service.maxWorkers sv ≤ Z.of_nat (size (Service.activeWorkers sv)) →
  ∃ info sv',
    Service.createWorker uuid (sv, events) = (Normal info, (sv', events)) ∧
    Service.activeWorkers sv' !! uuid = Some info ∧
    Service.maxWorkers sv' = Service.maxWorkers sv ∧
    Service.maxWorkers sv' < Z.of_nat (size (Service.activeWorkers sv')).
Proof.
  intros Hfresh Hfull. eexists _, _. split; [reflexivity|]. cbn.
  split_and!; [apply lookup_insert_eq | done |].
  rewrite map_size_insert_None by done. lia.
Qed.

(** ** Faults *)


(** ** The mesh codec *)

(** C6, as the code has it.  [meshToSTL] and [meshToOBJ] throw when
    there is no mesh, no vertex buffer or no index buffer, and return a
    text for every mesh that has both buffers, whatever its indices. *)
Theorem mesh_export_checks_presence_only (meshData : option (meshData float)) :
  (meshData = None ∨
   (∃ m, meshData = Some m ∧ (vertices m = None ∨ indices m = None)) →
   Service.meshToSTL meshData = Thrown "Invalid mesh data for STL export" ∧
   Service.meshToOBJ meshData = Thrown "Invalid mesh data for OBJ export") ∧
  (∀ m vs ixs,
     meshData = Some m → vertices m = Some vs → indices m = Some ixs →
     ∃ stl obj,
       Service.meshToSTL meshData = Normal stl ∧
       Service.meshToOBJ meshData = Normal obj).
Proof.
  split.
  - intros [->|(m & -> & [Hv|Hi])]; [done|..]; destruct m as [v i n c];
      cbn in *; subst; [done|]. by destruct v.
  - intros m vs ixs -> Hv Hi. destruct m as [v i n c]. cbn in *. subst.
    by eexists _, _.
Qed.

(** The text [meshToOBJ] is expected to produce, written from the
    mesh as triples. *)
Definition flatten {A} (l : list (A * A * A)) : list A :=
  flat_map (λ p, [p.1.1; p.1.2; p.2]) l.

Definition coordinate_line (prefix : string) (p : float * float * float)
  : string :=
  prefix +:+ " " +:+ number_to_string p.1.1 +:+ " "
    +:+ number_to_string p.1.2 +:+ " " +:+ number_to_string p.2
    +:+ Service.LF.

Definition face_line (with_normals : bool) (f : Z * Z * Z) : string :=
  let v1 := pretty (f.1.1 + 1) in
  let v2 := pretty (f.1.2 + 1) in
  let v3 := pretty (f.2 + 1) in
  if with_normals
  then "f " +:+ v1 +:+ "//" +:+ v1 +:+ " " +:+ v2 +:+ "//" +:+ v2 +:+ " "
         +:+ v3 +:+ "//" +:+ v3 +:+ Service.LF
  else "f " +:+ v1 +:+ " " +:+ v2 +:+ " " +:+ v3 +:+ Service.LF.

Definition lines {A} (line : A → string) (l : list A) : string :=
  foldr (λ x rest, line x +:+ rest) "" l.

Lemma string_app_assoc (a b c : string) : (a +:+ b) +:+ c = a +:+ (b +:+ c).
Proof.
  induction a as [|x a IH]; [done|].
  change (String x ((a +:+ b) +:+ c) = String x (a +:+ (b +:+ c))).
  by rewrite IH.
Qed.

Lemma obj_lines_flatten (prefix : string) (l : list (float * float * float)) :
  Service.obj_lines prefix (flatten l) = lines (coordinate_line prefix) l.
Proof.
  induction l as [|[[x y] z] l IH]; [done|].
  cbn [flatten flat_map app Service.obj_lines lines foldr fst snd].
  fold (flatten l). fold (lines (coordinate_line prefix) l). rewrite IH.
  unfold coordinate_line. cbn [fst snd].
  by rewrite !string_app_assoc.
Qed.

Lemma obj_faces_flatten (with_normals : bool) (l : list (Z * Z * Z)) :
  Service.obj_faces with_normals (flatten l) = lines (face_line with_normals) l.
Proof.
  induction l as [|[[a b] c] l IH]; [done|].
  cbn [flatten flat_map app Service.obj_faces lines foldr fst snd].
  fold (flatten l). fold (lines (face_line with_normals) l). rewrite IH.
  reflexivity.
Qed.

Lemma flatten_length {A} (l : list (A * A * A)) :
  length (flatten l) = (3 * length l)%nat.
Proof.
  induction l as [|p l IH]; [done|].
  unfold flatten in *. cbn [flat_map app length]. rewrite IH. lia.
Qed.

(** C9. For a valid mesh -- whole triples, every index below the
    vertex count, as many normals as vertices when there are normals --
    [meshToOBJ] writes its header, then one [v] line per vertex, then
    one [vn] line per normal, then one [f] line per triangle; a face
    line names each corner by its index plus one, as [v//v] exactly
    when the mesh has normals. *)
Theorem meshToOBJ_layout
  (vs : list (float * float * float)) (faces : list (Z * Z * Z))
  (ns : option (list (float * float * float))) (count : nat) :
  Forall (λ f, 0 ≤ f.1.1 < Z.of_nat (length vs) ∧
               0 ≤ f.1.2 < Z.of_nat (length vs) ∧
               0 ≤ f.2 < Z.of_nat (length vs)) faces →
  (∀ n, ns = Some n → length n = length vs) →
  Service.meshToOBJ
    (Some (MeshData (Some (flatten vs)) (Some (flatten faces))
                    (flatten <$> ns) count))
  = Normal ("# CascadeStudio Generated OBJ File" +:+ Service.LF
            +:+ lines (coordinate_line "v") vs
            +:+ lines (coordinate_line "vn") (default [] ns)
            +:+ lines (face_line (bool_decide (is_Some ns))) faces).
Proof.
  intros Hrange Hnormals. unfold Service.meshToOBJ. f_equal.
  rewrite obj_lines_flatten. do 3 f_equal.
  destruct ns as [n|]; cbn [fmap option_fmap option_map from_option id].
  - pose proof (Hnormals n eq_refl) as Hn. rewrite flatten_length, Hn.
    destruct vs as [|p vs].
    + destruct n; [|done]. destruct faces as [|f faces]; [done|].
      apply Forall_cons in Hrange as [Hf _]. cbn in Hf. lia.
    + cbn [length]. replace (0 <? Z.of_nat (3 * S (length vs))) with true
        by (symmetry; apply Z.ltb_lt; lia).
      rewrite obj_lines_flatten, obj_faces_flatten.
      by rewrite bool_decide_eq_true_2.
  - cbn [length]. change (0 <? Z.of_nat 0) with false.
    rewrite obj_faces_flatten.
    rewrite bool_decide_eq_false_2; [done|]. by intros [? ?].
Qed.

(** ** Validation *)


End ServiceProperties.

(** * The definitions at work

    Each statement below runs the definitions on the host [Demo.host]
    at a concrete input. *)

Section Examples.
Import Demo.

(** [Box(10, 10, 10);] evaluated and tessellated by a started worker:
    one shape, eight vertices around the origin, twelve triangles. *)
Example box_is_tessellated :
  let w := Worker.on_message 0
             (Worker.Evaluate
                (Worker.Invoke (Worker.CallBox (num 10) (num 10) (num 10))
                   (λ _, Worker.Return VUndef))
                (Some ∅))
             Worker.started in
  last (Worker.outbox (Worker.on_message 1
          (Worker.CombineAndRenderShapes (VNum (Some (1 # 10)%Q))) w))
  = Some (Worker.PostMesh
      (MeshData
         (Some (Some <$> [ -5; -5; -5;  5; -5; -5;  5; 5; -5;  -5; 5; -5;
                           -5; -5; 5;   5; -5; 5;   5; 5; 5;   -5; 5; 5 ]%Q))
         (Some Worker.box_indices)
         (Some (replicate 24 (Some 0%Q)))
         1)
      1).
Proof. vm_compute. reflexivity. Qed.



Lemma fifth_worker_witness :
  ∃ info sv',
    Service.createWorker "w5" (four_workers, [])
      = (Normal info, (sv', [])) ∧
    Service.activeWorkers sv' !! "w5" = Some info ∧
    Service.maxWorkers sv' = Service.maxWorkers four_workers ∧
    Service.maxWorkers sv' < Z.of_nat (size (Service.activeWorkers sv')).
Proof.
  apply createWorker_beyond_maxWorkers.
  - vm_compute. reflexivity.
  - vm_compute. discriminate.
Defined.

(** C4, at work: the script [return process;] is handed the process
    object of the host, and [return self;] the global object. *)
Lemma global_object_witness :
  (Worker.executeCode (Worker.Read "process" Worker.Return) None
     Worker.started).1
    = Worker.Success (VNative "process") [] [] ∅ ∧
  (Worker.executeCode (Worker.Read "self" Worker.Return) None
     Worker.started).1
    = Worker.Success (VNative "global") [] [] ∅.
Proof.
  split.
  - destruct (script_reaches_the_global_object None Worker.started "process")
      as (_ & _ & _ & _ & _ & Hambient).
    apply Hambient; refine (bool_decide_unpack _ _); vm_compute; exact I.
  - destruct (script_reaches_the_global_object None Worker.started "self")
      as (_ & _ & _ & Hself & _).
    apply Hself. reflexivity.
Defined.



(** C6, as the specification has it, fails: with one vertex and the
    indices 0, 1 and 7 both exports return a text, in which the
    coordinates that are missing read [undefined]. *)
Lemma out_of_range_index_is_exported :
  Service.meshToSTL (Some dangling)
    = Normal (String.concat Service.LF
        ["solid CascadeStudioExport";
         "  facet normal 0 0 1";
         "    outer loop";
         "      vertex 0 0 0";
         "      vertex undefined undefined undefined";
         "      vertex undefined undefined undefined";
         "    endloop";
         "  endfacet";
         "endsolid CascadeStudioExport";
         ""]) ∧
  Service.meshToOBJ (Some dangling)
    = Normal (String.concat Service.LF
        ["# CascadeStudio Generated OBJ File";
         "v 0 0 0";
         "f 1 2 8";
         ""]).
Proof. vm_compute. split; reflexivity. Qed.

Lemma mesh_export_witness :
  Service.meshToSTL (None : option (meshData number))
    = Thrown "Invalid mesh data for STL export" ∧
  ∃ stl obj,
    Service.meshToSTL (Some dangling) = Normal stl ∧
    Service.meshToOBJ (Some dangling) = Normal obj.
Proof.
  split.
  - destruct (mesh_export_checks_presence_only (None : option (meshData number)))
      as [Habsent _].
    destruct Habsent as [HSTL _]; [left; reflexivity | exact HSTL].
  - destruct (mesh_export_checks_presence_only (Some dangling)) as [_ Hpresent].
    apply (Hpresent dangling [Some 0%Q; Some 0%Q; Some 0%Q] [0; 1; 7]);
      reflexivity.
Defined.


(** One triangle with its normals. *)
Lemma meshToOBJ_witness :
  Service.meshToOBJ
    (Some (MeshData
       (Some (flatten [(Some 0, Some 0, Some 0); (Some 1, Some 0, Some 0);
                       (Some 0, Some 1, Some 0)]%Q))
       (Some (flatten [(0, 1, 2)]))
       (flatten <$> Some [(Some 0, Some 0, Some 1); (Some 0, Some 0, Some 1);
                          (Some 0, Some 0, Some 1)]%Q) 1))
  = Normal (String.concat Service.LF
      ["# CascadeStudio Generated OBJ File";
       "v 0 0 0"; "v 1 0 0"; "v 0 1 0";
       "vn 0 0 1"; "vn 0 0 1"; "vn 0 0 1";
       "f 1//1 2//2 3//3";
       ""]).
Proof.
  rewrite meshToOBJ_layout.
  - vm_compute. reflexivity.
  - repeat constructor; simpl; lia.
  - intros n [= <-]. reflexivity.
Defined.

End Examples.

(** * Further properties of the worker *)

Section WorkerAllocation.
Context {float : Type} `{JSHost float}.

Implicit Types (w : @Worker.state float) (v : value float).
Implicit Types (code : @Worker.script float) (logs : list Worker.logEntry).

(** ** The shapes of one evaluation *)

(** Since the heap was [base] objects long, every object allocated is
    in [currentShapes], in the order of allocation, and nothing else
    is. *)
Definition allocated_since (base : nat) w : Prop :=
  (base ≤ length (Worker.heap w))%nat ∧
  Worker.currentShapes w = seq base (length (Worker.heap w) - base).

Lemma push_shape_allocated (d : @Worker.shapeData float) base w :
  allocated_since base w → allocated_since base (Worker.push_shape d w).2.
Proof.
  intros [Hle Hcur]. unfold allocated_since. cbn.
  rewrite length_app. cbn. split; [lia|].
  replace (length (Worker.heap w) + 1 - base)%nat
    with (S (length (Worker.heap w) - base)) by lia.
  rewrite seq_S, Hcur. do 2 f_equal. lia.
Qed.

Lemma forEach_set_translation_allocated (vector : value float)
  (l : list (value float)) base w :
  allocated_since base w →
  allocated_since base (Worker.forEach (Worker.set_translation vector) l w).2.
Proof.
  revert w. induction l as [|x l IH]; intros w Hw; [done|].
  cbn [Worker.forEach]. unfold Worker.bind.
  destruct x; cbn; try (by apply IH); try done.
  apply IH. destruct Hw as [Hle Hcur]. unfold allocated_since. cbn.
  by rewrite length_alter.
Qed.

Lemma invoke_allocated (c : @Worker.call float) logs base w :
  allocated_since base w → allocated_since base (Worker.invoke c logs w).2.
Proof.
  intros Hw. destruct c; cbn;
    unfold Worker.Box, Worker.Sphere, Worker.Cylinder, Worker.Union,
      Worker.Difference, Worker.Slider, Worker.Checkbox, Worker.TextInput,
      Worker.Dropdown;
    try (destruct (Worker.oc w); [by apply push_shape_allocated | done]);
    try (by apply push_shape_allocated); try done.
  - unfold Worker.Translate. destruct shapes; cbn; try done.
    + unfold Worker.bind.
      pose proof (forEach_set_translation_allocated vector elems base w Hw) as Hl.
      by destruct (Worker.forEach _ elems w) as [[[]|] ?].
    + unfold Worker.bind.
      pose proof (forEach_set_translation_allocated vector elems base w Hw) as Hl.
      by destruct (Worker.forEach _ elems w) as [[[]|] ?].
    + destruct Hw as [Hle Hcur]. unfold allocated_since. cbn.
      by rewrite length_alter.
  - destruct (is_undefined _); [|done]. by destruct (get_member _ _).
Qed.

Lemma call_function_allocated code logs base w :
  allocated_since base w →
  allocated_since base (Worker.call_function code logs w).2.
Proof.
  revert logs w.
  induction code as [result|message|c k IH|identifier k IH]; intros logs w Hw;
    [done..| |].
  - cbn [Worker.call_function].
    pose proof (invoke_allocated c logs base w Hw) as Hc.
    destruct (Worker.invoke c logs w) as [[[a|e] logs'] w']; cbn in Hc |- *.
    + by apply IH.
    + done.
  - cbn [Worker.call_function].
    destruct (Worker.resolve _ identifier); [by apply IH|done].
Qed.

Lemma executeCode_allocated code
  (guiState : option (gmap string (value float))) w :
  allocated_since (length (Worker.heap w))
    (Worker.executeCode code guiState w).2.
Proof.
  unfold Worker.executeCode. cbn.
  set (w1 := Worker.State _ _ _ _ _).
  assert (H1 : allocated_since (length (Worker.heap w)) w1).
  { unfold allocated_since, w1. cbn. split; [lia|]. by rewrite Nat.sub_diag. }
  pose proof (call_function_allocated code [] _ w1 H1) as Hw2.
  by destruct (Worker.call_function code [] w1) as [[[result|message] logs] w2].
Qed.

(** An evaluation starts from no shapes: whatever the worker held
    before, [currentShapes] afterwards is exactly the objects this
    evaluation allocated, in creation order, and these are the shapes a
    successful evaluation returns.  No object is ever removed from the
    heap. *)
Theorem executeCode_shapes_are_its_own code
  (guiState : option (gmap string (value float))) w :
  let w' := (Worker.executeCode code guiState w).2 in
  (length (Worker.heap w) ≤ length (Worker.heap w'))%nat ∧
  Worker.currentShapes w'
    = seq (length (Worker.heap w))
          (length (Worker.heap w') - length (Worker.heap w)) ∧
  match (Worker.executeCode code guiState w).1 with
  | Worker.Success _ shapes _ _ => shapes = Worker.currentShapes w'
  | Worker.Failure _ _ => True
  end.
Proof.
  cbn zeta. destruct (executeCode_allocated code guiState w) as [Hle Hcur].
  split_and!; [done..|].
  unfold Worker.executeCode. cbn.
  by destruct (Worker.call_function code [] _) as [[[result|message] logs] w2].
Qed.

End WorkerAllocation.

Section WorkerMessages.
Context {float : Type} `{JSHost float}.

Implicit Types (w : @Worker.state float) (v : value float).
Implicit Types (code : @Worker.script float) (logs : list Worker.logEntry).

(** ** A worker over its whole life *)

(** The messages a worker has handled since it started, each with the
    time at which it was handled. *)
Definition handled (messages : list (Z * @Worker.request float))
  : @Worker.state float :=
  foldl (λ w m, Worker.on_message m.1 m.2 w) Worker.started messages.

(** ** What a worker posts *)

Definition is_log (m : @Worker.posted float) : bool :=
  match m with Worker.PostLog _ _ => true | _ => false end.


Lemma forEach_set_translation_outbox (vector : value float)
  (l : list (value float)) w :
  Worker.outbox (Worker.forEach (Worker.set_translation vector) l w).2
  = Worker.outbox w.
Proof.
  revert w. induction l as [|x l IH]; intros w; [done|].
  cbn [Worker.forEach]. unfold Worker.bind.
  destruct x; cbn; try apply IH; try done.
  by rewrite IH.
Qed.

Lemma invoke_outbox (c : @Worker.call float) logs w :
  ∃ posted, Worker.outbox (Worker.invoke c logs w).2 = Worker.outbox w ++ posted
            ∧ Forall (λ m, is_log m = true) posted.
Proof.
  destruct c; cbn;
    unfold Worker.Box, Worker.Sphere, Worker.Cylinder, Worker.Union,
      Worker.Difference, Worker.Slider, Worker.Checkbox, Worker.TextInput,
      Worker.Dropdown;
    try (exists []; rewrite app_nil_r; split; [|constructor];
         first [ done | by destruct (Worker.oc w) ]).
  - exists []. rewrite app_nil_r. split; [|constructor].
    unfold Worker.Translate. destruct shapes; cbn; try done.
    all: unfold Worker.bind.
    all: pose proof (forEach_set_translation_outbox vector elems w) as Hl.
    all: by destruct (Worker.forEach _ elems w) as [[[]|] ?].
  - exists []. rewrite app_nil_r. split; [|constructor].
    destruct (is_undefined _); [|done]. by destruct (get_member _ _).
  - eexists [_]. split; [reflexivity|]. by repeat constructor.
Qed.

Lemma call_function_outbox code logs w :
  ∃ posted,
    Worker.outbox (Worker.call_function code logs w).2 = Worker.outbox w ++ posted
    ∧ Forall (λ m, is_log m = true) posted.
Proof.
  revert logs w.
  induction code as [result|message|c k IH|identifier k IH]; intros logs w;
    [by exists []; rewrite app_nil_r..| |].
  - cbn [Worker.call_function].
    destruct (invoke_outbox c logs w) as (p1 & Hp1 & Hl1).
    destruct (Worker.invoke c logs w) as [[[a|e] logs'] w']; cbn in Hp1 |- *.
    + destruct (IH a logs' w') as (p2 & Hp2 & Hl2).
      exists (p1 ++ p2). rewrite Hp2, Hp1, app_assoc. split; [done|].
      by apply Forall_app.
    + by exists p1.
  - cbn [Worker.call_function].
    destruct (Worker.resolve _ identifier); [apply IH|].
    by exists []; rewrite app_nil_r.
Qed.


End WorkerMessages.

Section TranslateProperties.
Context {float : Type} `{JSHost float}.

Implicit Types (w : @Worker.state float) (v vector : value float).
Implicit Types (l : list (value float)) (h : list (@Worker.shape float)).

(** ** [Translate] *)

Definition with_heap w h : @Worker.state float :=
  Worker.State (Worker.oc w) h (Worker.currentShapes w)
               (Worker.currentGUIState w) (Worker.outbox w).

(** The shape references among the elements of an array. *)
Definition refs l : list nat :=
  omap (λ x, match x with VRef r => Some r | _ => None end) l.

Definition moved vector (s : @Worker.shape float) : @Worker.shape float :=
  Worker.Shape (Worker.data s) vector.

(** The heap once every object of [rs] has been given [vector]. *)
Definition translate_all vector (rs : list nat) h : list (@Worker.shape float) :=
  foldl (λ h r, alter (moved vector) r h) h rs.

(** An element [forEach] can store a property on. *)
Definition storable v : Prop := v ≠ VUndef ∧ v ≠ VNull.

Lemma elem_of_refs (r : nat) l : r ∈ refs l ↔ VRef r ∈ l.
Proof.
  unfold refs. rewrite list_elem_of_omap. split.
  - intros (x & Hx & Hr). destruct x; try discriminate. by injection Hr as ->.
  - intros Hr. by exists (VRef r).
Qed.

Lemma refs_app l1 l2 : refs (l1 ++ l2) = refs l1 ++ refs l2.
Proof. apply omap_app. Qed.

Lemma translate_all_cons vector (r : nat) rs h :
  translate_all vector (r :: rs) h
  = translate_all vector rs (alter (moved vector) r h).
Proof. reflexivity. Qed.

Lemma translate_all_lookup vector rs h (i : nat) :
  translate_all vector rs h !! i
  = if bool_decide (i ∈ rs) then moved vector <$> h !! i else h !! i.
Proof.
  revert h. induction rs as [|r rs IH]; intros h; [done|].
  rewrite translate_all_cons, IH. destruct (decide (i = r)) as [->|Hne].
  - rewrite list_lookup_alter_eq.
    rewrite (bool_decide_eq_true_2 (r ∈ r :: rs)) by left.
    case_bool_decide; [|done]. by destruct (h !! r).
  - rewrite list_lookup_alter_ne by done.
    case_bool_decide as Hin.
    + rewrite bool_decide_eq_true_2; [done|]. by right.
    + rewrite bool_decide_eq_false_2; [done|].
      intros [?|?]%elem_of_cons; done.
Qed.

Lemma translate_all_length vector rs h :
  length (translate_all vector rs h) = length h.
Proof.
  revert h. induction rs as [|r rs IH]; intros h; [done|].
  by rewrite translate_all_cons, IH, length_alter.
Qed.

Lemma set_translation_storable vector v w :
  storable v →
  Worker.set_translation vector v w
  = (Normal tt, with_heap w (translate_all vector (refs [v]) (Worker.heap w))).
Proof. intros [? ?]. destruct v, w; done. Qed.

Lemma set_translation_hole vector v w :
  v = VUndef ∨ v = VNull →
  ∃ e, Worker.set_translation vector v w = (Thrown e, w).
Proof. intros [->| ->]; by eexists. Qed.

Lemma translate_all_app vector (rs1 rs2 : list nat) h :
  translate_all vector (rs1 ++ rs2) h
  = translate_all vector rs2 (translate_all vector rs1 h).
Proof. unfold translate_all. by rewrite foldl_app. Qed.

(** [forEach] over elements that all take the property. *)
Lemma forEach_storable vector l w :
  Forall storable l →
  Worker.forEach (Worker.set_translation vector) l w
  = (Normal tt, with_heap w (translate_all vector (refs l) (Worker.heap w))).
Proof.
  intros Hl. revert w. induction Hl as [|x l Hx Hl IH]; intros w.
  { by destruct w. }
  cbn [Worker.forEach]. unfold Worker.bind.
  rewrite (set_translation_storable _ _ _ Hx), IH.
  change (x :: l) with ([x] ++ l). by rewrite refs_app, translate_all_app.
Qed.

(** [forEach] up to the first element that is undefined or null. *)
Lemma forEach_hole vector (pre post : list (value float)) (bad : value float) w :
  Forall storable pre →
  bad = VUndef ∨ bad = VNull →
  ∃ e, Worker.forEach (Worker.set_translation vector) (pre ++ bad :: post) w
       = (Thrown e,
          with_heap w (translate_all vector (refs pre) (Worker.heap w))).
Proof.
  intros Hpre Hbad. revert w. induction Hpre as [|x pre Hx Hpre IH]; intros w.
  - cbn [app Worker.forEach]. unfold Worker.bind.
    destruct (set_translation_hole vector bad w Hbad) as [e ->].
    exists e. by destruct w.
  - cbn [app Worker.forEach]. unfold Worker.bind.
    rewrite (set_translation_storable _ _ _ Hx).
    destruct (IH (with_heap w (translate_all vector (refs [x]) (Worker.heap w))))
      as [e ->].
    exists e. change (x :: pre) with ([x] ++ pre).
    by rewrite refs_app, translate_all_app.
Qed.

(** [forEach] returns only when every element took the property. *)
Lemma forEach_returns vector l w w' :
  Worker.forEach (Worker.set_translation vector) l w = (Normal tt, w') →
  Forall storable l.
Proof.
  revert w. induction l as [|x l IH]; intros w; [by constructor|].
  cbn [Worker.forEach]. unfold Worker.bind.
  destruct x; cbn; try discriminate;
    intros Hl%IH; (constructor; [by split | done]).
Qed.

(** [Translate] on an array stops at the first element that is
    undefined or null and throws, without undoing anything: the shapes
    before that element carry the new translation, every other object
    is as it was (the shapes after the element were never reached), and
    [currentShapes] is unchanged. *)
Theorem Translate_stops_at_first_hole vector (pre post : list (value float))
  (bad : value float) w :
  Forall storable pre →
  bad = VUndef ∨ bad = VNull →
  ∃ e w',
    Worker.Translate vector (VArr (pre ++ bad :: post)) w = (Thrown e, w') ∧
    (∀ (r : nat), VRef r ∈ pre →
       Worker.heap w' !! r = moved vector <$> Worker.heap w !! r) ∧
    (∀ (r : nat), VRef r ∉ pre → Worker.heap w' !! r = Worker.heap w !! r) ∧
    Worker.currentShapes w' = Worker.currentShapes w.
Proof.
  intros Hpre Hbad. unfold Worker.Translate, Worker.bind.
  destruct (forEach_hole vector pre post bad w Hpre Hbad) as [e ->].
  eexists e, _. split; [reflexivity|]. cbn. split_and!; [| |done].
  - intros r Hr. rewrite translate_all_lookup.
    by rewrite bool_decide_eq_true_2 by by apply elem_of_refs.
  - intros r Hr. rewrite translate_all_lookup.
    by rewrite bool_decide_eq_false_2 by by rewrite elem_of_refs.
Qed.

(** A translation is stored, not composed: translating the same shapes
    again replaces the vector, so after two calls the worker is in the
    state the second call alone would have left. *)
Theorem Translate_last_wins (v1 v2 shapes result : value float) w w1 :
  Worker.Translate v1 shapes w = (Normal result, w1) →
  Worker.Translate v2 shapes w1 = Worker.Translate v2 shapes w.
Proof.
  assert (Htwice : ∀ rs h,
    translate_all v2 rs (translate_all v1 rs h) = translate_all v2 rs h).
  { intros rs h. apply list_eq. intros i. rewrite !translate_all_lookup.
    case_bool_decide; [|done]. by destruct (h !! i). }
  unfold Worker.Translate, Worker.bind. destruct shapes as [| | | | |l|l t|r|].
  6, 7: (
    destruct (Worker.forEach (Worker.set_translation v1) l w)
      as [[[]|e] w1'] eqn:Hl; [|discriminate];
    intros [= _ <-]; pose proof (forEach_returns _ _ _ _ Hl) as Hall;
    rewrite (forEach_storable v1 l w Hall) in Hl; injection Hl as <-;
    rewrite !(forEach_storable v2) by done; cbn; by rewrite Htwice).
  6: {
    cbn. intros [= _ <-]. cbn.
    pose proof (Htwice [r] (Worker.heap w)) as Hr.
    unfold translate_all, moved in Hr. cbn in Hr. by rewrite Hr. }
  all: cbn; by intros [= _ <-].
Qed.

End TranslateProperties.

Section MeshProperties.
Context {float : Type} `{JSHost float}.

Implicit Types (s : @Worker.shape float) (c m : @Worker.combined float).
Implicit Types (shapes : list (@Worker.shape float)).

(** ** The size of a mesh *)

(** The vertices and triangles the mocked kernel gives a shape: a box
    has its eight corners and twelve triangles, a sphere a grid of
    17 x 17 points and 2 x 16 x 16 triangles, anything else is one
    triangle. *)
Definition vertex_count s : nat :=
  match Worker.data s with
  | Worker.MakeBox _ => 8
  | Worker.MakeSphere _ => 289
  | _ => 3
  end.

Definition triangle_count s : nat :=
  match Worker.data s with
  | Worker.MakeBox _ => 12
  | Worker.MakeSphere _ => 512
  | _ => 1
  end.

Lemma shape_mesh_sizes s :
  length (Worker.shape_mesh s).1.1 = (3 * vertex_count s)%nat ∧
  length (Worker.shape_mesh s).1.2 = (3 * triangle_count s)%nat ∧
  length (Worker.shape_mesh s).2 = (3 * vertex_count s)%nat.
Proof.
  unfold Worker.shape_mesh, vertex_count, triangle_count.
  destruct (Worker.data s) as [d|r|r h|ch|b tl]; cbn [fst snd].
  - rewrite length_replicate, box_vertices_length. by split_and!.
  - rewrite sphere_vertices_length, sphere_normals_length.
    split_and!; [done | by vm_compute | done].
  - by split_and!.
  - by split_and!.
  - by split_and!.
Qed.

(** [add_shape] written out on the buffers of the shape. *)
Definition placed s : list (value float) :=
  if truthy (Worker.translation s)
  then Worker.translate_vertices (Worker.translation s) (Worker.shape_mesh s).1.1
  else (Worker.shape_mesh s).1.1.

Lemma placed_length s : length (placed s) = (3 * vertex_count s)%nat.
Proof.
  destruct (shape_mesh_sizes s) as (Hv & _ & _). unfold placed.
  destruct (truthy _); [by apply translate_vertices_length | done].
Qed.

Lemma add_shape_eq c s :
  Worker.add_shape c s
  = Worker.Combined
      (Worker.all_vertices c ++ placed s)
      (Worker.all_indices c
         ++ map (λ index, index + Worker.vertexOffset c) (Worker.shape_mesh s).1.2)
      (Worker.all_normals c ++ (Worker.shape_mesh s).2)
      (Worker.vertexOffset c + Z.of_nat (vertex_count s)).
Proof.
  unfold Worker.add_shape, placed.
  pose proof (placed_length s) as Hp. unfold placed in Hp.
  destruct (Worker.shape_mesh s) as [[sv si] sn]. cbn [fst snd] in *.
  f_equal. f_equal. rewrite Hp, Nat2Z.inj_mul, Z.mul_comm.
  by apply Z.div_mul.
Qed.

(** The buffers of [m] appended to those of [c], its indices moved
    past the vertices of [c]. *)
Definition appended c m : @Worker.combined float :=
  Worker.Combined
    (Worker.all_vertices c ++ Worker.all_vertices m)
    (Worker.all_indices c
       ++ map (λ index, index + Worker.vertexOffset c) (Worker.all_indices m))
    (Worker.all_normals c ++ Worker.all_normals m)
    (Worker.vertexOffset c + Worker.vertexOffset m).

Definition nothing : @Worker.combined float := Worker.Combined [] [] [] 0.

Lemma appended_nothing c : appended c nothing = c.
Proof.
  destruct c. unfold appended, nothing. cbn.
  by rewrite !app_nil_r, Z.add_0_r.
Qed.

Lemma add_shape_appended c m s :
  Worker.add_shape (appended c m) s = appended c (Worker.add_shape m s).
Proof.
  rewrite !add_shape_eq. unfold appended. cbn. f_equal.
  - by rewrite app_assoc.
  - rewrite map_app, map_map, <- app_assoc. do 2 f_equal.
    apply map_ext. intros i. lia.
  - by rewrite app_assoc.
  - lia.
Qed.

Lemma fold_add_shape_appended shapes c m :
  fold_left Worker.add_shape shapes (appended c m)
  = appended c (fold_left Worker.add_shape shapes m).
Proof.
  revert m. induction shapes as [|s shapes IH]; intros m; [done|].
  cbn [fold_left]. by rewrite add_shape_appended, IH.
Qed.

Lemma fold_add_shape_app shapes1 shapes2 :
  fold_left Worker.add_shape (shapes1 ++ shapes2) nothing
  = appended (fold_left Worker.add_shape shapes1 nothing)
             (fold_left Worker.add_shape shapes2 nothing).
Proof.
  rewrite fold_left_app.
  rewrite <- (appended_nothing (fold_left Worker.add_shape shapes1 nothing)) at 1.
  apply fold_add_shape_appended.
Qed.

Definition total (count : @Worker.shape float → nat) shapes : nat :=
  sum_list_with count shapes.

Lemma fold_add_shape_sizes shapes :
  let m := fold_left Worker.add_shape shapes nothing in
  length (Worker.all_vertices m) = (3 * total vertex_count shapes)%nat ∧
  length (Worker.all_indices m) = (3 * total triangle_count shapes)%nat ∧
  length (Worker.all_normals m) = (3 * total vertex_count shapes)%nat ∧
  Worker.vertexOffset m = Z.of_nat (total vertex_count shapes).
Proof.
  induction shapes as [|s shapes IH] using rev_ind; [done|].
  cbn zeta in *. destruct IH as (Hv & Hi & Hn & Ho).
  rewrite fold_left_app. cbn [fold_left]. rewrite add_shape_eq. cbn.
  destruct (shape_mesh_sizes s) as (_ & Hsi & Hsn).
  unfold total in *. rewrite !sum_list_with_app. cbn.
  rewrite !length_app, length_map, placed_length, Hv, Hi, Hn, Hsi, Hsn, Ho.
  split_and!; lia.
Qed.

(** The mesh of a list of shapes has three coordinates per vertex,
    three indices per triangle and three normal components per vertex,
    where each box counts for 8 vertices and 12 triangles, each sphere
    for 289 and 512, and each other shape for 3 and 1; a translation
    changes none of these numbers, and no shapes give empty buffers. *)
Theorem generateMeshData_sizes shapes (maxDeviation : value float) :
  ∃ (vs : list float) (ixs : list Z) (ns : list float),
    Worker.generateMeshData shapes maxDeviation
      = MeshData (Some vs) (Some ixs) (Some ns) (length shapes) ∧
    length vs = (3 * total vertex_count shapes)%nat ∧
    length ixs = (3 * total triangle_count shapes)%nat ∧
    length ns = (3 * total vertex_count shapes)%nat.
Proof.
  unfold Worker.generateMeshData.
  destruct (fold_add_shape_sizes shapes) as (Hv & Hi & Hn & _).
  eexists _, _, _. split; [reflexivity|]. by rewrite !length_map.
Qed.

(** ** Meshes compose *)

(** The mesh of two lists of shapes put together is the mesh of the
    first followed by the mesh of the second, whose indices are moved
    up by the vertex count of the first (modulo 2^32, as stored). *)
Theorem generateMeshData_app shapes1 shapes2 (maxDeviation : value float) :
  ∃ (vs1 vs2 : list float) (ixs1 ixs2 : list Z) (ns1 ns2 : list float),
    Worker.generateMeshData shapes1 maxDeviation
      = MeshData (Some vs1) (Some ixs1) (Some ns1) (length shapes1) ∧
    Worker.generateMeshData shapes2 maxDeviation
      = MeshData (Some vs2) (Some ixs2) (Some ns2) (length shapes2) ∧
    Worker.generateMeshData (shapes1 ++ shapes2) maxDeviation
      = MeshData (Some (vs1 ++ vs2))
          (Some (ixs1 ++ map (λ i, Worker.to_uint32
                                     (i + Z.of_nat (length vs1) / 3)) ixs2))
          (Some (ns1 ++ ns2))
          (length shapes1 + length shapes2).
Proof.
  unfold Worker.generateMeshData.
  eexists _, _, _, _, _, _. split; [reflexivity|]. split; [reflexivity|].
  change (Worker.Combined [] [] [] 0) with nothing.
  rewrite fold_add_shape_app. unfold appended. cbn.
  destruct (fold_add_shape_sizes shapes1) as (Hv & _ & _ & Ho).
  cbn zeta in *. rewrite !map_app, length_app, length_map, Hv, Ho.
  replace (Z.of_nat (3 * total vertex_count shapes1) / 3)
    with (Z.of_nat (total vertex_count shapes1))
    by (rewrite Nat2Z.inj_mul, Z.mul_comm; symmetry; by apply Z.div_mul).
  do 2 f_equal. rewrite !map_map. f_equal. apply map_ext. intros i.
  unfold Worker.to_uint32. by rewrite Zplus_mod_idemp_l.
Qed.

End MeshProperties.

(** * Further properties of the mesh codec *)

Section CodecProperties.
Context {float : Type} `{JSHost float}.

(** ** The layout of an STL export *)

(** The triple a corner index names, if the buffer has it. *)
Definition triple_at {A} (l : list (A * A * A)) (a : Z) : option (A * A * A) :=
  if a <? 0 then None else l !! Z.to_nat a.

(** Three coordinates as a template literal writes them. *)
Definition corner_text (p : option (float * float * float)) : string :=
  match p with
  | Some (x, y, z) =>
      number_to_string x +:+ " " +:+ number_to_string y +:+ " "
        +:+ number_to_string z
  | None => "undefined undefined undefined"
  end.

(** The facet expected for one triangle: the normal is the stored
    normal of the first corner where the mesh has one, and [0 0 1]
    otherwise. *)
Definition stl_block (vs ns : list (float * float * float)) (f : Z * Z * Z)
  : string :=
  "  facet normal "
    +:+ (if f.1.1 <? Z.of_nat (length ns)
         then corner_text (triple_at ns f.1.1) else "0 0 1") +:+ Service.LF
  +:+ "    outer loop" +:+ Service.LF
  +:+ "      vertex " +:+ corner_text (triple_at vs f.1.1) +:+ Service.LF
  +:+ "      vertex " +:+ corner_text (triple_at vs f.1.2) +:+ Service.LF
  +:+ "      vertex " +:+ corner_text (triple_at vs f.2) +:+ Service.LF
  +:+ "    endloop" +:+ Service.LF
  +:+ "  endfacet" +:+ Service.LF.

Lemma flatten_cons {A} (p : A * A * A) (l : list (A * A * A)) :
  flatten (p :: l) = p.1.1 :: p.1.2 :: p.2 :: flatten l.
Proof. reflexivity. Qed.

Lemma flatten_lookup {A} (l : list (A * A * A)) (n : nat) :
  flatten l !! (3 * n)%nat = (λ p, p.1.1) <$> l !! n ∧
  flatten l !! (3 * n + 1)%nat = (λ p, p.1.2) <$> l !! n ∧
  flatten l !! (3 * n + 2)%nat = (λ p, p.2) <$> l !! n.
Proof.
  revert n. induction l as [|p l IH]; intros n; [done|].
  rewrite flatten_cons. destruct n as [|n]; [done|].
  replace (3 * S n)%nat with (S (S (S (3 * n)))) by lia.
  cbn [lookup list_lookup Nat.add]. apply IH.
Qed.

Lemma at_index_flatten {A} (l : list (A * A * A)) (a : Z) :
  Service.at_index (flatten l) (Service.times (Some a) 3)
    = (λ p, p.1.1) <$> triple_at l a ∧
  Service.at_index (flatten l) (Service.plus (Service.times (Some a) 3) 1)
    = (λ p, p.1.2) <$> triple_at l a ∧
  Service.at_index (flatten l) (Service.plus (Service.times (Some a) 3) 2)
    = (λ p, p.2) <$> triple_at l a.
Proof.
  unfold Service.at_index, Service.times, Service.plus, triple_at. cbn.
  destruct (Z.ltb_spec a 0) as [Hneg|Hpos].
  - rewrite !(proj2 (Z.ltb_lt _ _)) by lia. done.
  - rewrite !(proj2 (Z.ltb_ge _ _)) by lia.
    destruct (flatten_lookup l (Z.to_nat a)) as (H0 & H1 & H2).
    replace (Z.to_nat (a * 3)) with (3 * Z.to_nat a)%nat by lia.
    replace (Z.to_nat (a * 3 + 1)) with (3 * Z.to_nat a + 1)%nat by lia.
    replace (Z.to_nat (a * 3 + 2)) with (3 * Z.to_nat a + 2)%nat by lia.
    done.
Qed.

Lemma stl_vertex_flatten (vs : list (float * float * float)) (a : Z) :
  Service.stl_vertex (flatten vs) (Service.times (Some a) 3)
  = "      vertex " +:+ corner_text (triple_at vs a) +:+ Service.LF.
Proof.
  unfold Service.stl_vertex.
  destruct (at_index_flatten vs a) as (-> & -> & ->).
  destruct (triple_at vs a) as [[[x y] z]|]; cbn [fmap option_fmap option_map
    Service.show_element corner_text fst snd]; [|done].
  by rewrite !string_app_assoc.
Qed.

Lemma length_gt_flatten {A} (l : list (A * A * A)) (a : Z) :
  Service.length_gt (flatten l) (Service.times (Some a) 3)
  = (a <? Z.of_nat (length l)).
Proof.
  unfold Service.length_gt, Service.times. cbn [fmap option_fmap option_map].
  rewrite flatten_length.
  destruct (Z.ltb_spec a (Z.of_nat (length l)));
    [apply Z.ltb_lt | apply Z.ltb_ge]; lia.
Qed.

Lemma stl_facet_flatten (vs ns : list (float * float * float)) (f : Z * Z * Z) :
  Service.stl_facet (flatten vs) (flatten ns) (Some f.1.1) (Some f.1.2) (Some f.2)
  = stl_block vs ns f.
Proof.
  unfold Service.stl_facet, stl_block. rewrite !stl_vertex_flatten.
  cbv zeta. rewrite !length_gt_flatten.
  destruct (f.1.1 <? Z.of_nat (length ns)).
  - destruct (at_index_flatten ns f.1.1) as (-> & -> & ->).
    destruct (triple_at ns f.1.1) as [[[x y] z]|]; cbn [fmap option_fmap option_map
      Service.show_element corner_text fst snd];
      rewrite !string_app_assoc; reflexivity.
  - cbn [fst snd]. rewrite !string_app_assoc. reflexivity.
Qed.

Lemma stl_facets_flatten (vs ns : list (float * float * float))
  (faces : list (Z * Z * Z)) :
  Service.stl_facets (flatten vs) (flatten ns) (flatten faces)
  = lines (stl_block vs ns) faces.
Proof.
  induction faces as [|f faces IH]; [done|].
  rewrite flatten_cons. cbn [Service.stl_facets lines foldr].
  fold (lines (stl_block vs ns) faces). by rewrite IH, stl_facet_flatten.
Qed.

(** For a mesh made of whole triples [meshToSTL] writes the [solid]
    line, one facet per triangle and the [endsolid] line.  The normal
    of a facet is not computed from its corners: it is the normal
    stored for the first corner, or [0 0 1] where the mesh has none
    (the export does not fail on missing normals); a corner the vertex
    buffer does not have is written as [undefined]. *)
Theorem meshToSTL_layout
  (vs : list (float * float * float)) (faces : list (Z * Z * Z))
  (ns : option (list (float * float * float))) (count : nat) :
  Service.meshToSTL
    (Some (MeshData (Some (flatten vs)) (Some (flatten faces))
                    (flatten <$> ns) count))
  = Normal ("solid CascadeStudioExport" +:+ Service.LF
            +:+ lines (stl_block vs (default [] ns)) faces
            +:+ "endsolid CascadeStudioExport" +:+ Service.LF).
Proof.
  unfold Service.meshToSTL.
  destruct ns as [n|]; cbn [fmap option_fmap option_map default from_option id].
  - by rewrite stl_facets_flatten.
  - by rewrite (stl_facets_flatten vs []).
Qed.

End CodecProperties.

(** * The pool of workers across an operation *)

Section PoolProperties.
Context {float : Type} `{JSHost float}.

Implicit Types (sv : @Service.service float) (events : list (@Service.event float)).
Implicit Types (info : Service.workerInfo) (uuid : string).

(** The service an operation that started from [sv0] is running on:
    one more thread and one more timer than it found, and its worker
    either added to the map or, once terminated, the map as found. *)
Definition lent uuid sv0 sv : Prop :=
  Service.maxWorkers sv = Service.maxWorkers sv0 ∧
  Service.workerTimeout sv = Service.workerTimeout sv0 ∧
  Service.threads sv = S (Service.threads sv0) ∧
  Service.timers sv
    = Service.timers sv0
        ++ [(Service.now sv0 + Service.workerTimeout sv0, uuid)] ∧
  ((∃ info,
      Service.activeWorkers sv = <[uuid := info]> (Service.activeWorkers sv0) ∧
      Service.worker info = Service.threads sv0 ∧
      Service.terminated sv = Service.terminated sv0) ∨
   (Service.activeWorkers sv = Service.activeWorkers sv0 ∧
    Service.terminated sv = Service.terminated sv0 ∪ {[ Service.threads sv0 ]})).

(** The service once the operation is over. *)
Definition given_back uuid sv0 sv : Prop :=
  Service.activeWorkers sv = Service.activeWorkers sv0 ∧
  Service.terminated sv = Service.terminated sv0 ∪ {[ Service.threads sv0 ]} ∧
  Service.threads sv = S (Service.threads sv0) ∧
  Service.timers sv
    = Service.timers sv0
        ++ [(Service.now sv0 + Service.workerTimeout sv0, uuid)] ∧
  Service.maxWorkers sv = Service.maxWorkers sv0 ∧
  Service.workerTimeout sv = Service.workerTimeout sv0.

Lemma terminateWorker_given_back uuid sv0 sv :
  Service.activeWorkers sv0 !! uuid = None →
  lent uuid sv0 sv → given_back uuid sv0 (Service.terminateWorker uuid sv).
Proof.
  intros Hfresh (Hm & Ht & Hn & Htm & [(info & Ha & Hw & Hd)|[Ha Hd]]);
    unfold Service.terminateWorker, given_back.
  - rewrite Ha, lookup_insert_eq. cbn.
    rewrite delete_insert_id by done. rewrite Hw, Hd. done.
  - rewrite Ha, Hfresh. done.
Qed.

Lemma given_back_lent uuid sv0 sv : given_back uuid sv0 sv → lent uuid sv0 sv.
Proof. intros (? & ? & ? & ? & ? & ?). unfold lent. split_and!; [done..|]. by right. Qed.

Lemma set_busy_lent info sv0 sv :
  Service.activeWorkers sv0 !! Service.id info = None →
  lent (Service.id info) sv0 sv →
  lent (Service.id info) sv0 (Service.set_busy info sv).
Proof.
  intros Hfresh (Hm & Ht & Hn & Htm & [(i & Ha & Hw & Hd)|[Ha Hd]]);
    unfold lent; cbn; split_and!; try done.
  - left. eexists. rewrite Ha, alter_insert_eq. done.
  - right. rewrite Ha, alter_id' by done. done.
Qed.

Lemma sendWorkerMessage_lent info (message : @Worker.request float) sv0 :
  Service.activeWorkers sv0 !! Service.id info = None →
  keeps (lent (Service.id info) sv0) (Service.sendWorkerMessage info message).
Proof.
  intros Hfresh sv events Hlent. unfold Service.sendWorkerMessage. cbn [fst snd].
  assert (Hsent : lent (Service.id info) sv0
                    (Service.record_sent info message sv)) by exact Hlent.
  destruct events as [|e events]; [exact Hsent|].
  set (sv1 := Service.advance _ _).
  assert (H1 : lent (Service.id info) sv0 sv1) by exact Hsent.
  set (sv2 := if Service.cleanup_fired e then _ else _).
  assert (H2 : lent (Service.id info) sv0 sv2).
  { subst sv2. destruct (Service.cleanup_fired e); [|done].
    by apply given_back_lent, terminateWorker_given_back. }
  destruct (Service.ending e) as [response|m|]; try exact H2.
  by destruct (Service.messageHandler response).
Qed.

(** The shape all five operations share, once more. *)
Lemma acquired_worker_given_back {A} (body : Service.workerInfo → Service.Op A)
  uuid sv events :
  Service.activeWorkers sv !! uuid = None →
  (∀ info, Service.id info = uuid → keeps (lent uuid sv) (body info)) →
  given_back uuid sv
    (Service.bind (Service.createWorker uuid)
       (λ workerInfo,
          Service.try_finally (body workerInfo)
            (Service.terminateWorker (Service.id workerInfo)))
       (sv, events)).2.1.
Proof.
  intros Hfresh Hbody. unfold Service.bind, Service.createWorker.
  cbn [fst snd]. unfold Service.try_finally.
  set (info := Service.WorkerInfo _ _ _ _).
  set (sv' := Service.ServiceState _ _ _ _ _ _ _ _).
  assert (Hlent : lent uuid sv sv').
  { unfold lent. cbn. split_and!; [done..|]. left. by exists info. }
  specialize (Hbody info eq_refl sv' events Hlent).
  destruct (body info (sv', events)) as [r [sv'' events'']]. cbn in *.
  by apply terminateWorker_given_back.
Qed.



End PoolProperties.

(** * What an operation returns and what it posts *)

Section OperationProperties.
Context {float : Type} `{JSHost float}.

Implicit Types (sv : @Service.service float) (events : list (@Service.event float)).
Implicit Types (r : @Worker.posted float) (e : @Service.event float).

(** The message ends a wait with a result: it has no [error], or an
    empty one. *)
Definition accepted r : Prop := Service.messageHandler r = Normal r.

Lemma messageHandler_cases r :
  accepted r ∨ ∃ m, m ≠ "" ∧ Service.messageHandler r = Thrown m.
Proof.
  unfold accepted, Service.messageHandler.
  destruct (Service.response_error r) as [m|]; [|by left].
  destruct (String.eqb_spec m ""); [by left|right; eauto].
Qed.

(** [executeScript] returns exactly when two messages arrive and
    neither carries an error.  What it returns then has [success] true;
    the logs and the GUI state are those of the first message, where it
    has them, and else no logs and the GUI state of the caller; the
    mesh and the shape count are those of the second message, where it
    has them, and else no mesh and zero; the execution time is the time
    the two waits took.  Which request a message answers is not
    looked at. *)
Theorem executeScript_returns
  (code : @Worker.script float) (guiState : option (gmap string (value float)))
  (meshResolution : value float) (uuid : string) sv events
  (result : @Service.executionResult float) :
  (Service.executeScript code guiState meshResolution uuid (sv, events)).1
    = Normal result
  ↔ ∃ e1 e2 rest r1 r2,
      events = e1 :: e2 :: rest ∧
      Service.ending e1 = Service.MessageEvent r1 ∧ accepted r1 ∧
      Service.ending e2 = Service.MessageEvent r2 ∧ accepted r2 ∧
      result = Service.ExecutionResult true
                 (Service.response_meshData r2)
                 (default [] (Service.response_logs r1))
                 (Service.elapsed e1 + Service.elapsed e2)
                 (default 0%nat (Service.response_shapeCount r2))
                 (default (default ∅ guiState) (Service.response_guiState r1)).
Proof.
  unfold Service.executeScript, Service.bind, Service.try_finally,
    Service.createWorker, Service.update, Service.Date_now,
    Service.sendWorkerMessage, Service.ret. cbn [fst snd].
  split.
  - destruct events as [|e1 events]; [done|].
    destruct e1 as [d1 f1 [r1| |]]; cbn [Service.ending Service.elapsed
      Service.cleanup_fired]; [|done..].
    destruct (messageHandler_cases r1) as [Hr1|(m & _ & Hr1)];
      rewrite Hr1; [|done].
    cbv beta iota. cbn [fst snd].
    destruct events as [|e2 rest]; [done|].
    destruct e2 as [d2 f2 [r2| |]]; cbn [Service.ending Service.elapsed
      Service.cleanup_fired]; [|done..].
    destruct (messageHandler_cases r2) as [Hr2|(m & _ & Hr2)];
      rewrite Hr2; [|done].
    cbv beta iota. cbn [fst snd]. intros Hres. eexists _, _, rest, r1, r2.
    split_and!; [reflexivity|reflexivity|done|reflexivity|done|].
    cbn [fst snd] in Hres. injection Hres as <-. f_equal.
    destruct f1, f2; cbn; unfold Service.terminateWorker; cbn;
      repeat case_match; cbn; lia.
  - intros (e1 & e2 & rest & r1 & r2 & -> & He1 & Hr1 & He2 & Hr2 & ->).
    rewrite He1, Hr1. cbv beta iota. cbn [fst snd]. rewrite He2, Hr2.
    cbn [fst snd]. do 2 f_equal.
    destruct (Service.cleanup_fired e1), (Service.cleanup_fired e2); cbn;
      unfold Service.terminateWorker; cbn; repeat case_match; cbn; lia.
Qed.

(** ** The requests an operation posts *)

Lemma terminateWorker_sent (workerId : string) sv :
  Service.sent (Service.terminateWorker workerId sv) = Service.sent sv.
Proof. unfold Service.terminateWorker. by case_match. Qed.

Lemma sendWorkerMessage_sent info (message : @Worker.request float) sv events :
  Service.sent (Service.sendWorkerMessage info message (sv, events)).2.1
  = Service.sent sv ++ [(Service.worker info, message)].
Proof.
  unfold Service.sendWorkerMessage. cbn [fst snd].
  destruct events as [|e events]; [done|].
  assert (Hs : Service.sent
            (if Service.cleanup_fired e
             then Service.terminateWorker (Service.id info)
                    (Service.advance (Service.elapsed e)
                       (Service.record_sent info message sv))
             else Service.advance (Service.elapsed e)
                    (Service.record_sent info message sv))
          = Service.sent sv ++ [(Service.worker info, message)]).
  { destruct (Service.cleanup_fired e); [by rewrite terminateWorker_sent|done]. }
  destruct (Service.ending e) as [response|m|]; try exact Hs.
  by destruct (Service.messageHandler response).
Qed.

(** The first wait of an operation ends with a result: an event comes
    and it is a message without error. *)
Definition answered events : Prop :=
  ∃ e rest r,
    events = e :: rest ∧
    Service.ending e = Service.MessageEvent r ∧ accepted r.

Lemma sendWorkerMessage_answered info (message : @Worker.request float)
  sv events :
  (answered events ∧
   ∃ r, (Service.sendWorkerMessage info message (sv, events)).1 = Normal r) ∨
  (¬ answered events ∧
   ∃ m, (Service.sendWorkerMessage info message (sv, events)).1 = Thrown m).
Proof.
  unfold Service.sendWorkerMessage. cbn [fst snd].
  destruct events as [|e rest].
  { right. split; [by intros (? & ? & ? & ? & _)|by eexists]. }
  destruct (Service.ending e) as [r|m|] eqn:He.
  - destruct (messageHandler_cases r) as [Hr|(m & Hm & Hr)]; rewrite Hr.
    + left. split; [by exists e, rest, r|by eexists].
    + right. split; [|by eexists].
      intros (e' & rest' & r' & [= <- <-] & He' & Hr').
      rewrite He in He'. injection He' as <-. unfold accepted in Hr'.
      congruence.
  - right. split; [|by eexists].
    intros (e' & rest' & r' & [= <- <-] & He' & _). congruence.
  - right. split; [|by eexists].
    intros (e' & rest' & r' & [= <- <-] & He' & _). congruence.
Qed.

(** The operation posted [request] to [thread] and nothing else. *)
Definition posts_only {A} (thread : nat) (request : @Worker.request float)
  sv (out : completion A * (@Service.service float * list (@Service.event float)))
  : Prop :=
  Service.sent out.2.1 = Service.sent sv ++ [(thread, request)].

(** The operation posted [first] to [thread]; when the wait for its
    answer ended with a result it then posted [second] as well, and
    when it did not the operation posted nothing more and threw. *)
Definition posts_then {A} (thread : nat) (first second : @Worker.request float)
  sv events
  (out : completion A * (@Service.service float * list (@Service.event float)))
  : Prop :=
  (answered events ∧
   Service.sent out.2.1
     = Service.sent sv ++ [(thread, first); (thread, second)]) ∨
  (¬ answered events ∧
   Service.sent out.2.1 = Service.sent sv ++ [(thread, first)] ∧
   ∃ m, out.1 = Thrown m).

(** One request and what follows it, inside [try ... finally]. *)
Lemma posts_one {A} info (message : @Worker.request float)
  (k : @Worker.posted float → Service.Op A) sv0 sv events :
  Service.sent sv = Service.sent sv0 →
  (∀ r s, Service.sent (k r s).2.1 = Service.sent s.1) →
  posts_only (Service.worker info) message sv0
    (Service.try_finally
       (Service.bind (Service.sendWorkerMessage info message) k)
       (Service.terminateWorker (Service.id info)) (sv, events)).
Proof.
  intros Hsv Hk. unfold posts_only, Service.try_finally, Service.bind.
  pose proof (sendWorkerMessage_sent info message sv events) as Hs.
  destruct (Service.sendWorkerMessage info message (sv, events))
    as [[r|m] [sv1 events1]]; cbn [fst snd] in *.
  - specialize (Hk r (sv1, events1)).
    destruct (k r (sv1, events1)) as [a [sv2 events2]]. cbn [fst snd] in *.
    by rewrite terminateWorker_sent, Hk, Hs, Hsv.
  - by rewrite terminateWorker_sent, Hs, Hsv.
Qed.

(** Two requests, the second posted once the first is answered. *)
Lemma posts_two {A} info (first second : @Worker.request float)
  (k : @Worker.posted float → @Worker.posted float → Service.Op A)
  sv0 sv events :
  Service.sent sv = Service.sent sv0 →
  (∀ r1 r2 s, Service.sent (k r1 r2 s).2.1 = Service.sent s.1) →
  posts_then (Service.worker info) first second sv0 events
    (Service.try_finally
       (Service.bind (Service.sendWorkerMessage info first) (λ r1,
          Service.bind (Service.sendWorkerMessage info second) (k r1)))
       (Service.terminateWorker (Service.id info)) (sv, events)).
Proof.
  intros Hsv Hk. unfold posts_then, Service.try_finally, Service.bind.
  pose proof (sendWorkerMessage_sent info first sv events) as Hs1.
  pose proof (sendWorkerMessage_answered info first sv events) as Hcase.
  destruct (Service.sendWorkerMessage info first (sv, events))
    as [[r1|m] [sv1 events1]]; cbn [fst snd] in *.
  - left. destruct Hcase as [[Hyes _]|[_ [m Hm]]]; [|done]. split; [done|].
    pose proof (sendWorkerMessage_sent info second sv1 events1) as Hs2.
    destruct (Service.sendWorkerMessage info second (sv1, events1))
      as [[r2|m] [sv2 events2]]; cbn [fst snd] in *.
    + specialize (Hk r1 r2 (sv2, events2)).
      destruct (k r1 r2 (sv2, events2)) as [a [sv3 events3]].
      cbn [fst snd] in *.
      rewrite terminateWorker_sent, Hk, Hs2, Hs1, Hsv, <- app_assoc. done.
    + rewrite terminateWorker_sent, Hs2, Hs1, Hsv, <- app_assoc. done.
  - right. destruct Hcase as [[_ [r Hr]]|[Hno _]]; [done|].
    split_and!; [done| |by eexists].
    by rewrite terminateWorker_sent, Hs1, Hsv.
Qed.

(** Each operation posts its requests to the worker it created, in
    order, and nothing else: [Evaluate] with the script and the GUI
    state of the caller (or the empty one) first; then, exactly when
    the first wait has ended with a result, the mesh request with the
    resolution of the caller (or 0.1), or [saveShapeSTEP]; when the
    first wait has not, nothing more is posted and the operation
    throws.  An import posts [loadFiles] with the one file and nothing
    else. *)
Theorem operations_post_their_requests
  (code : @Worker.script float) (guiState : option (gmap string (value float)))
  (meshResolution : value float) (filename content : string)
  (uuid : string) sv events :
  let evaluate := Worker.Evaluate code (Some (default ∅ guiState)) in
  let mesh :=
    Worker.CombineAndRenderShapes (Service.default_resolution meshResolution) in
  posts_then (Service.threads sv) evaluate mesh sv events
    (Service.executeScript code guiState meshResolution uuid (sv, events)) ∧
  posts_only (Service.threads sv) (Worker.LoadFiles [(filename, content)]) sv
    (Service.importFile filename content uuid (sv, events)) ∧
  posts_then (Service.threads sv) evaluate Worker.SaveShapeSTEP sv events
    (Service.exportSTEP code guiState meshResolution uuid (sv, events)) ∧
  posts_then (Service.threads sv) evaluate mesh sv events
    (Service.exportSTL code guiState meshResolution uuid (sv, events)) ∧
  posts_then (Service.threads sv) evaluate mesh sv events
    (Service.exportOBJ code guiState meshResolution uuid (sv, events)).
Proof.
  intros evaluate mesh.
  set (info := Service.WorkerInfo (Service.threads sv) uuid (Service.now sv) false).
  set (sv1 := Service.set_busy info (Service.createWorker uuid (sv, events)).2.1).
  split_and!.
  - apply (posts_two info evaluate mesh
             (λ result meshResult,
                Service.bind Service.Date_now (λ endTime,
                  Service.ret (Service.ExecutionResult true
                    (Service.response_meshData meshResult)
                    (default [] (Service.response_logs result))
                    (endTime - Service.now sv1)
                    (default 0%nat (Service.response_shapeCount meshResult))
                    (default (default ∅ guiState)
                       (Service.response_guiState result)))))
             sv sv1 events); done.
  - apply (posts_one info (Worker.LoadFiles [(filename, content)])
             (λ result,
                Service.ret (Service.Imported true
                  (default filename (Service.response_shapeId result))
                  ("Successfully imported " +:+ filename)))
             sv sv1 events); done.
  - apply (posts_two info evaluate Worker.SaveShapeSTEP
             (λ _ result,
                Service.ret (Service.Exported _
                  (match Service.response_content result
                         return (string + @Worker.posted float)%type with
                   | Some c => if String.eqb c "" then inr result else inl c
                   | None => inr result
                   end) "export.step"))
             sv sv1 events); done.
  - apply (posts_two info evaluate mesh
             (λ _ meshResult,
                Service.bind
                  (Service.lift
                     (Service.meshToSTL (Service.response_meshData meshResult)))
                  (λ stlContent,
                     Service.ret (Service.Exported _ stlContent "export.stl")))
             sv sv1 events); [done|].
    intros _ r2 s. unfold Service.bind.
    by destruct (Service.meshToSTL (Service.response_meshData r2)).
  - apply (posts_two info evaluate mesh
             (λ _ meshResult,
                Service.bind
                  (Service.lift
                     (Service.meshToOBJ (Service.response_meshData meshResult)))
                  (λ objContent,
                     Service.ret (Service.Exported _ objContent "export.obj")))
             sv sv1 events); [done|].
    intros _ r2 s. unfold Service.bind.
    by destruct (Service.meshToOBJ (Service.response_meshData r2)).
Qed.

(** ** Imports *)

Lemma string_app_length (a b : string) :
  String.length (a +:+ b) = (String.length a + String.length b)%nat.
Proof.
  induction a as [|c a IH]; [done|].
  change (String c a +:+ b) with (String c (a +:+ b)). cbn. by rewrite IH.
Qed.

(** [importFile] returns exactly when a message without error arrives,
    and then always the same thing: [success] true, the file name as
    [shapeId] and a fixed message.  The answer of the worker to
    [loadFiles] is such a message whatever the content of the file, so
    with it every import succeeds; the id the worker made for the
    shape, which is not the file name, is not what the service
    returns. *)
Theorem importFile_returns (filename content uuid : string) sv events
  (result : Service.imported) :
  ((Service.importFile filename content uuid (sv, events)).1 = Normal result
   ↔ (∃ e rest r,
        events = e :: rest ∧
        Service.ending e = Service.MessageEvent r ∧ accepted r) ∧
     result = Service.Imported true filename
                ("Successfully imported " +:+ filename)) ∧
  ∀ now (w : @Worker.state float),
    ∃ shapeId,
      last (Worker.outbox
              (Worker.on_message now
                 (Worker.LoadFiles [(filename, content)]) w))
        = Some (Worker.PostLoadFiles
                  [Worker.ImportResult filename true shapeId
                     ("Successfully imported " +:+ filename)]) ∧
      shapeId ≠ filename ∧
      accepted (Worker.PostLoadFiles
                  [Worker.ImportResult filename true shapeId
                     ("Successfully imported " +:+ filename)]).
Proof.
  split.
  - unfold Service.importFile, Service.bind, Service.try_finally,
      Service.createWorker, Service.update, Service.sendWorkerMessage,
      Service.ret. cbn [fst snd].
    split.
    + destruct events as [|e rest]; [done|].
      destruct (Service.ending e) as [r| |] eqn:He; [|done..].
      destruct (messageHandler_cases r) as [Hr|(m & _ & Hr)];
        rewrite Hr; [|done].
      cbn [fst snd]. intros [= <-]. split; [|done]. by eexists _, _, _.
    + intros [(e & rest & r & -> & He & Hr) ->]. by rewrite He, Hr.
  - intros now w. eexists. split; [|split].
    + cbn. rewrite last_snoc. reflexivity.
    + intros Heq. apply (f_equal String.length) in Heq.
      rewrite !string_app_length in Heq. cbn in Heq. lia.
    + done.
Qed.

End OperationProperties.

(** * Shutting workers down *)

Section CleanupProperties.
Context {float : Type} `{JSHost float}.

Implicit Types (sv : @Service.service float) (ids : list string).

(** The workers a list of ids names in a map. *)
Definition workers_of (m : gmap string Service.workerInfo) ids : list nat :=
  omap (λ workerId, Service.worker <$> m !! workerId) ids.

Lemma elem_of_workers_of m ids (thread : nat) :
  thread ∈ workers_of m ids
  ↔ ∃ workerId info,
      workerId ∈ ids ∧ m !! workerId = Some info ∧ Service.worker info = thread.
Proof.
  unfold workers_of. rewrite list_elem_of_omap. split.
  - intros (workerId & Hin & Hw).
    destruct (m !! workerId) as [info|] eqn:E; [|done].
    injection Hw as <-. by exists workerId, info.
  - intros (workerId & info & Hin & Hm & <-). exists workerId.
    by rewrite Hm.
Qed.

(** Terminating the workers of a list of ids one after the other. *)
Lemma foldr_terminateWorker ids sv :
  foldr Service.terminateWorker sv ids
  = Service.ServiceState
      (foldr delete (Service.activeWorkers sv) ids)
      (Service.maxWorkers sv) (Service.workerTimeout sv) (Service.threads sv)
      (Service.terminated sv
         ∪ list_to_set (workers_of (Service.activeWorkers sv) ids))
      (Service.timers sv) (Service.sent sv) (Service.now sv).
Proof.
  induction ids as [|workerId ids IH].
  - destruct sv. cbn. f_equal. by rewrite union_empty_r_L.
  - cbn [foldr]. rewrite IH. unfold Service.terminateWorker.
    cbn [Service.activeWorkers Service.maxWorkers Service.workerTimeout
      Service.threads Service.terminated Service.timers Service.sent Service.now].
    destruct (foldr delete (Service.activeWorkers sv) ids !! workerId)
      as [info|] eqn:E.
    + apply lookup_foldr_delete_Some in E as [Hnot Hm].
      f_equal. unfold workers_of. cbn [omap list_omap]. rewrite Hm.
      cbn. rewrite <- (assoc_L (∪)). f_equal. apply (comm_L (∪)).
    + rewrite delete_id by done. f_equal.
      destruct (Service.activeWorkers sv !! workerId) as [info|] eqn:Hm.
      * assert (Hin : workerId ∈ ids).
        { destruct (decide (workerId ∈ ids)) as [|Hnot]; [done|].
          rewrite lookup_foldr_delete_not_elem_of in E by done. congruence. }
        assert (Service.worker info
                  ∈ workers_of (Service.activeWorkers sv) ids).
        { apply elem_of_workers_of. by exists workerId, info. }
        unfold workers_of in *. cbn [omap list_omap]. rewrite Hm. cbn.
        f_equal. symmetry. apply subseteq_union_1_L.
        by apply singleton_subseteq_l, elem_of_list_to_set.
      * unfold workers_of. cbn [omap list_omap]. by rewrite Hm.
Qed.

(** [cleanup] does what calling [terminateWorker] on every id of the
    map does, in whatever order the map is walked and however often an
    id comes up: no entry is left and every worker that had one is
    terminated.  After it a timer that still fires finds nothing to
    do. *)
Theorem cleanup_terminates_each_worker ids sv :
  (∀ workerId,
     workerId ∈ ids ↔ is_Some (Service.activeWorkers sv !! workerId)) →
  Service.cleanup sv = foldr Service.terminateWorker sv ids ∧
  Service.activeWorkers (Service.cleanup sv) = ∅ ∧
  (∀ workerId info,
     Service.activeWorkers sv !! workerId = Some info →
     Service.worker info ∈ Service.terminated (Service.cleanup sv)) ∧
  (∀ workerId,
     Service.terminateWorker workerId (Service.cleanup sv) = Service.cleanup sv).
Proof.
  intros Hids. split_and!.
  - rewrite foldr_terminateWorker. unfold Service.cleanup. f_equal.
    + symmetry. apply map_eq. intros workerId. rewrite lookup_empty.
      destruct (decide (workerId ∈ ids)) as [Hin|Hnot].
      * by apply lookup_foldr_delete.
      * rewrite lookup_foldr_delete_not_elem_of by done.
        apply eq_None_not_Some. by rewrite <- Hids.
    + f_equal. apply set_eq. intros thread.
      rewrite !elem_of_list_to_set, elem_of_workers_of.
      rewrite <- list_fmap_compose, list_elem_of_fmap. split.
      * intros ([workerId info] & -> & Hin).
        apply elem_of_map_to_list in Hin. exists workerId, info.
        split_and!; [|done..]. apply Hids. by eexists.
      * intros (workerId & info & _ & Hm & <-). exists (workerId, info).
        split; [done|]. by apply elem_of_map_to_list.
  - done.
  - intros workerId info Hm. cbn. apply elem_of_union_r.
    rewrite elem_of_list_to_set, <- list_fmap_compose, list_elem_of_fmap.
    exists (workerId, info). split; [done|]. by apply elem_of_map_to_list.
  - intros workerId. unfold Service.terminateWorker. cbn.
    by rewrite lookup_empty.
Qed.

End CleanupProperties.

(** * From the worker to an exported file *)

Section PipelineProperties.
Context {float : Type} `{JSHost float}.

Implicit Types (shapes : list (@Worker.shape float)).

(** A buffer read three elements at a time. *)
Fixpoint triples {A} (l : list A) : list (A * A * A) :=
  match l with
  | x :: y :: z :: rest => (x, y, z) :: triples rest
  | _ => []
  end.

Lemma flatten_triples {A} (k : nat) (l : list A) :
  length l = (3 * k)%nat → flatten (triples l) = l ∧ length (triples l) = k.
Proof.
  revert l. induction k as [|k IH]; intros l Hl.
  - by destruct l.
  - destruct l as [|x [|y [|z rest]]]; cbn in Hl; try lia.
    destruct (IH rest) as [Hf Hk]; [lia|]. cbn [triples length].
    rewrite flatten_cons. cbn [fst snd]. by rewrite Hf, Hk.
Qed.

Lemma Forall_triples {A} (P : A → Prop) (l : list A) :
  Forall P l → Forall (λ f, P f.1.1 ∧ P f.1.2 ∧ P f.2) (triples l).
Proof.
  intros Hl. remember (length l) as n eqn:Hn. revert l Hl Hn.
  induction n as [n IH] using lt_wf_ind. intros l Hl Hn.
  destruct l as [|x [|y [|z rest]]]; cbn [triples]; [constructor..|].
  apply Forall_cons in Hl as [Hx Hl]. apply Forall_cons in Hl as [Hy Hl].
  apply Forall_cons in Hl as [Hz Hl]. constructor; [done|].
  eapply IH; [|done|reflexivity]. subst n. cbn. lia.
Qed.

Lemma triple_at_is_Some {A} (l : list (A * A * A)) (a : Z) :
  0 ≤ a < Z.of_nat (length l) → is_Some (triple_at l a).
Proof.
  intros Ha. unfold triple_at. rewrite (proj2 (Z.ltb_ge _ _)) by lia.
  apply lookup_lt_is_Some. lia.
Qed.

(** What the worker answers to [combineAndRenderShapes] can always be
    exported.  Its mesh is made of whole vertices, whole triangles and
    one normal per vertex, as many as the shapes call for, and every
    corner of every triangle names a vertex of the mesh; so the STL
    text has one facet per triangle with the stored normal of its first
    corner, the OBJ text one [v] and one [vn] line per vertex and one
    [f] line per triangle in the form [v//v], and no corner is written
    as [undefined]. *)
Theorem worker_mesh_is_exported shapes (maxDeviation : value float) :
  ∃ (vs ns : list (float * float * float)) (faces : list (Z * Z * Z)),
    Worker.generateMeshData shapes maxDeviation
      = MeshData (Some (flatten vs)) (Some (flatten faces))
                 (Some (flatten ns)) (length shapes) ∧
    length vs = total vertex_count shapes ∧
    length ns = total vertex_count shapes ∧
    length faces = total triangle_count shapes ∧
    Forall (λ f, (is_Some (triple_at vs f.1.1) ∧ is_Some (triple_at ns f.1.1)) ∧
                 (is_Some (triple_at vs f.1.2) ∧ is_Some (triple_at ns f.1.2)) ∧
                 (is_Some (triple_at vs f.2) ∧ is_Some (triple_at ns f.2)))
           faces ∧
    Service.meshToSTL (Some (Worker.generateMeshData shapes maxDeviation))
      = Normal ("solid CascadeStudioExport" +:+ Service.LF
                +:+ lines (stl_block vs ns) faces
                +:+ "endsolid CascadeStudioExport" +:+ Service.LF) ∧
    Service.meshToOBJ (Some (Worker.generateMeshData shapes maxDeviation))
      = Normal ("# CascadeStudio Generated OBJ File" +:+ Service.LF
                +:+ lines (coordinate_line "v") vs
                +:+ lines (coordinate_line "vn") ns
                +:+ lines (face_line true) faces).
Proof.
  unfold Worker.generateMeshData.
  change (Worker.Combined [] [] [] 0) with (@nothing float).
  set (c := fold_left Worker.add_shape shapes nothing).
  destruct (fold_add_shape_sizes shapes) as (Hv & Hi & Hn & Ho).
  cbn zeta in *. fold c in Hv, Hi, Hn, Ho.
  pose proof (fold_add_shape_consistent shapes nothing) as (_ & _ & _ & Hidx).
  { unfold consistent, nothing; cbn. split_and!; [lia | lia | done | constructor]. }
  fold c in Hidx. rewrite Ho in Hidx.
  set (V := map to_float32 (Worker.all_vertices c)).
  set (N := map to_float32 (Worker.all_normals c)).
  set (I := map Worker.to_uint32 (Worker.all_indices c)).
  destruct (flatten_triples (total vertex_count shapes) V) as [HV HVk];
    [by subst V; rewrite length_map|].
  destruct (flatten_triples (total vertex_count shapes) N) as [HN HNk];
    [by subst N; rewrite length_map|].
  destruct (flatten_triples (total triangle_count shapes) I) as [HI HIk];
    [by subst I; rewrite length_map|].
  assert (Hrange : Forall (λ i, 0 ≤ i < Z.of_nat (total vertex_count shapes)) I).
  { subst I. apply Forall_map. eapply Forall_impl; [exact Hidx|].
    intros i Hi'. by apply to_uint32_bound. }
  exists (triples V), (triples N), (triples I).
  rewrite HV, HN, HI. split_and!; [done..| | |].
  - apply Forall_triples in Hrange.
    eapply Forall_impl; [exact Hrange|]. cbn beta.
    intros f (H1 & H2 & H3).
    split_and!; apply triple_at_is_Some; by rewrite ?HVk, ?HNk.
  - unfold Service.meshToSTL. cbn [default from_option id].
    rewrite <- HV, <- HN, <- HI at 1. by rewrite stl_facets_flatten.
  - unfold Service.meshToOBJ. cbn [default from_option id].
    destruct shapes as [|s shapes].
    + reflexivity.
    + assert (Hpos : (0 < length N)%nat).
      { subst N. rewrite length_map, Hn. unfold total. cbn.
        unfold vertex_count at 1. destruct (Worker.data s); lia. }
      rewrite (proj2 (Z.ltb_lt _ _)) by lia.
      rewrite <- HV at 1. rewrite <- HN at 1. rewrite <- HI at 1.
      by rewrite !obj_lines_flatten, obj_faces_flatten.
Qed.

End PipelineProperties.

(** * Properties of the import route *)

Section RouteProperties.
Context {float : Type} `{JSHost float}.

Implicit Types (sv : @Service.service float) (events : list (@Service.event float)).
Implicit Types (files : list (string * string)) (results : list Routes.fileResult).

Definition entry_filename (entry : Routes.fileResult) : string :=
  match entry with
  | Routes.FileImported filename _ _ => filename
  | Routes.FileFailed filename _ => filename
  end.

(** The [shapeId] of the entries that report a success. *)
Definition succeeded results : list string :=
  omap (λ entry, match entry with
                 | Routes.FileImported _ shapeId _ => Some shapeId
                 | Routes.FileFailed _ _ => None
                 end) results.

(** A success names the file as its shape and says so. *)
Definition well_reported (entry : Routes.fileResult) : Prop :=
  match entry with
  | Routes.FileImported filename shapeId message =>
      shapeId = filename ∧ message = "Successfully imported " +:+ filename
  | Routes.FileFailed _ _ => True
  end.

Lemma terminateWorker_threads (workerId : string) sv :
  Service.threads (Service.terminateWorker workerId sv) = Service.threads sv.
Proof. unfold Service.terminateWorker. by case_match. Qed.

Lemma importFile_outcome (filename content uuid : string) sv events :
  ∃ outcome sv' events',
    Service.importFile filename content uuid (sv, events)
      = (outcome, (sv', events')) ∧
    Service.threads sv' = S (Service.threads sv) ∧
    (∀ result, outcome = Normal result →
       result = Service.Imported true filename
                  ("Successfully imported " +:+ filename)).
Proof.
  unfold Service.importFile, Service.bind, Service.try_finally,
    Service.createWorker, Service.update, Service.sendWorkerMessage,
    Service.ret. cbn [fst snd].
  destruct events as [|e rest].
  { eexists _, _, _. split; [reflexivity|].
    by rewrite terminateWorker_threads. }
  destruct (Service.ending e) as [r|m|].
  - destruct (Service.messageHandler r) as [r'|m]; cbn [fst snd];
      eexists _, _, _; (split; [reflexivity|]);
      rewrite terminateWorker_threads;
      (split; [by destruct (Service.cleanup_fired e);
                 rewrite ?terminateWorker_threads|]);
      [by intros result [= <-] | done].
  - eexists _, _, _. split; [reflexivity|]. rewrite terminateWorker_threads.
    split; [|done].
    by destruct (Service.cleanup_fired e); rewrite ?terminateWorker_threads.
  - eexists _, _, _. split; [reflexivity|]. rewrite terminateWorker_threads.
    split; [|done].
    by destruct (Service.cleanup_fired e); rewrite ?terminateWorker_threads.
Qed.

Lemma importFile_given_back (filename content uuid : string) sv events :
  Service.activeWorkers sv !! uuid = None →
  given_back uuid sv
    (Service.importFile filename content uuid (sv, events)).2.1.
Proof.
  intros Hfresh.
  apply (acquired_worker_given_back (A := Service.imported)); [done|].
  intros info Hid. subst uuid.
  apply keeps_bind; [apply keeps_update; intros ?; by apply set_busy_lent|].
  intros _. apply keeps_bind; [by apply sendWorkerMessage_lent|].
  intros r. apply keeps_ret.
Qed.

Lemma import_each_spec (uuidv4 : nat → string) files results
  (importedShapes : list string) sv events :
  ∃ new sv' events',
    Routes.import_each uuidv4 files results importedShapes (sv, events)
      = (Normal (results ++ new, importedShapes ++ succeeded new),
         (sv', events')) ∧
    entry_filename <$> new = fst <$> files ∧
    Forall well_reported new ∧
    Service.threads sv' = (Service.threads sv + length files)%nat ∧
    ((∀ n, Service.activeWorkers sv !! uuidv4 n = None) →
     Service.activeWorkers sv' = Service.activeWorkers sv).
Proof.
  revert results importedShapes sv events.
  induction files as [|[filename content] files IH];
    intros results importedShapes sv events.
  - exists [], sv, events. cbn. rewrite !app_nil_r.
    split_and!; [done | done | constructor | lia | done].
  - cbn [Routes.import_each fst snd].
    destruct (importFile_outcome filename content
                (uuidv4 (Service.threads sv)) sv events)
      as (outcome & sv1 & events1 & Hrun & Hthreads & Hresult).
    pose proof (importFile_given_back filename content
                  (uuidv4 (Service.threads sv)) sv events) as Hback.
    rewrite Hrun in *. cbn [fst snd] in Hback.
    destruct outcome as [result|message].
    + rewrite (Hresult result eq_refl). cbn [Service.imported_shapeId
        Service.imported_message].
      destruct (IH (results
                      ++ [Routes.FileImported filename filename
                            ("Successfully imported " +:+ filename)])
                   (importedShapes ++ [filename]) sv1 events1)
        as (new & sv' & events' & -> & Hnames & Hok & Hcount & Hpool).
      exists (Routes.FileImported filename filename
                ("Successfully imported " +:+ filename) :: new), sv', events'.
      rewrite <- !app_assoc. cbn. split_and!; [done | by f_equal | | lia |].
      * by constructor.
      * intros Hfresh. destruct (Hback (Hfresh _)) as (Ha & _).
        rewrite Hpool; [done|]. intros n. by rewrite Ha.
    + destruct (IH (results ++ [Routes.FileFailed filename message])
                   importedShapes sv1 events1)
        as (new & sv' & events' & -> & Hnames & Hok & Hcount & Hpool).
      exists (Routes.FileFailed filename message :: new), sv', events'.
      rewrite <- !app_assoc. cbn. split_and!; [done | by f_equal | | lia |].
      * by constructor.
      * intros Hfresh. destruct (Hback (Hfresh _)) as (Ha & _).
        rewrite Hpool; [done|]. intros n. by rewrite Ha.
Qed.

(** The import route answers 200 with [success: true] whenever it is
    given a file, whatever became of the imports: a failed import, a
    worker error or a timeout is an entry of [results], never a status.
    [results] has one entry per file, in the order of the upload and
    under the name of the file; [importedShapes] lists the successes,
    which name each file as its own shape.  One worker is created per
    file, and when the ids are new to the map the map is left as it
    was. *)
Theorem import_route_reports_every_file (uuidv4 : nat → string)
  files sv events :
  files ≠ [] →
  ∃ results sv' events',
    Routes.import_route uuidv4 (Some files) (sv, events)
      = (Routes.Response 200
           (Routes.ImportBody
              ("Processed " +:+ pretty (length files) +:+ " file(s)")
              results (succeeded results)),
         (sv', events')) ∧
    entry_filename <$> results = fst <$> files ∧
    Forall well_reported results ∧
    Service.threads sv' = (Service.threads sv + length files)%nat ∧
    ((∀ n, Service.activeWorkers sv !! uuidv4 n = None) →
     Service.activeWorkers sv' = Service.activeWorkers sv).
Proof.
  intros Hfiles. unfold Routes.import_route.
  destruct files as [|file files]; [done|].
  destruct (import_each_spec uuidv4 (file :: files) [] [] sv events)
    as (new & sv' & events' & -> & Hnames & Hok & Hcount & Hpool).
  by exists new, sv', events'.
Qed.

End RouteProperties.

(** * Properties of the checks on uploaded files *)

Section UploadProperties.
Import Uploads.

Implicit Types (name s : list N) (c : N).

Lemma lower_dot c : lower c = 46%N ↔ c = 46%N.
Proof.
  unfold lower.
  destruct (N.leb_spec 65 c), (N.leb_spec c 90); cbn; lia.
Qed.

Lemma lastIndexOf_absent s c : c ∉ s → lastIndexOf s c = -1.
Proof.
  induction s as [|x s IH]; [done|]. intros Hc.
  apply not_elem_of_cons in Hc as [Hx Hs]. cbn [lastIndexOf].
  rewrite (IH Hs). cbn. destruct (N.eqb_spec x c); [congruence|done].
Qed.

Lemma lastIndexOf_last (pre post : list N) c :
  c ∉ post → lastIndexOf (pre ++ c :: post) c = Z.of_nat (length pre).
Proof.
  intros Hc. induction pre as [|x pre IH].
  - cbn [app lastIndexOf length]. rewrite (lastIndexOf_absent _ _ Hc). cbn.
    by rewrite N.eqb_refl.
  - cbn [app lastIndexOf length]. rewrite IH.
    rewrite (proj2 (Z.leb_le _ _)) by lia. lia.
Qed.

(** Every allowed extension is a dot followed by letters. *)
Lemma allowedExtensions_shape (ext : list N) :
  ext ∈ allowedExtensions → ∃ tail, ext = 46%N :: tail ∧ 46%N ∉ tail.
Proof.
  unfold allowedExtensions. cbn. rewrite !elem_of_cons, elem_of_nil.
  intros [->|[->|[->|[->|[->|[]]]]]]; eexists; (split; [reflexivity|]);
    rewrite !not_elem_of_cons; split_and!; try done; apply not_elem_of_nil.
Qed.

Lemma toLowerCase_ascii host name :
  Forall (λ c, (c < 128)%N) name → toLowerCase host name = lower <$> name.
Proof.
  intros Hascii. unfold toLowerCase.
  replace (forallb is_ascii name) with true; [done|].
  symmetry. apply forallb_forall. intros c Hc.
  apply List.Forall_forall with (x := c) in Hascii; [|done].
  unfold is_ascii. by apply N.ltb_lt.
Qed.

(** For a name of ASCII characters the check on the extension is a
    check on how the name ends: an upload is let through exactly when
    its name, in lower case, ends with one of the five extensions.  So
    a name with several dots is judged by the last, a name that is
    nothing but an extension is let through, and a name without a dot
    is refused whatever it is. *)
Theorem fileFilter_accepts_by_suffix (host : list N → list N) name :
  Forall (λ c, (c < 128)%N) name →
  fileFilter host name = Next
  ↔ ∃ ext, ext ∈ allowedExtensions ∧ ext `suffix_of` (lower <$> name).
Proof.
  intros Hascii. unfold fileFilter, fileExtension, substring.
  rewrite (toLowerCase_ascii host name Hascii). split.
  - destruct (bool_decide_reflect
                (drop (Z.to_nat (lastIndexOf name 46)) (lower <$> name)
                   ∈ allowedExtensions)) as [Hin|]; [|done].
    intros _. eexists. split; [exact Hin|]. apply suffix_drop.
  - intros (ext & Hext & [u Hu]).
    destruct (allowedExtensions_shape ext Hext) as (tail & -> & Htail).
    apply fmap_app_inv in Hu as (n1 & n2 & -> & Hn2 & ->).
    destruct n2 as [|d n2]; [done|]. cbn in Hn2.
    injection Hn2 as Hd Hn2. symmetry in Hd.
    apply (proj1 (lower_dot d)) in Hd. subst d.
    assert (Hlast : 46%N ∉ n2).
    { intros Hin. apply Htail. rewrite Hn2.
      apply list_elem_of_fmap. exists 46%N. split; [done|exact Hin]. }
    rewrite (lastIndexOf_last n1 n2 46%N Hlast), Nat2Z.id.
    rewrite fmap_app, drop_app_length' by (by rewrite length_fmap).
    rewrite bool_decide_eq_true_2; [done|]. cbn. by rewrite <- Hn2.
Qed.

(** [validateFileUpload] lets an upload through exactly when it has at
    least one file and every file passes the [fileFilter] of the route
    and is no larger than 50 MB, the limit the route gives multer. *)
Theorem validateFileUpload_accepts (host : list N → list N)
  (files : option (list (list N * Z))) :
  validateFileUpload host files = Next
  ↔ ∃ l, files = Some l ∧ l ≠ [] ∧
         Forall (λ file, fileFilter host file.1 = Next
                         ∧ file.2 ≤ 52428800) l.
Proof.
  assert (Hloop : ∀ l, check_files host l = Next
            ↔ Forall (λ file, fileFilter host file.1 = Next
                              ∧ file.2 ≤ 52428800) l).
  { induction l as [|file l IH]; [by split; [constructor|]|].
    cbn [check_files]. rewrite Forall_cons, <- IH. unfold fileFilter.
    destruct (bool_decide _); [|by split; [|intros [[? _] _]]].
    unfold maxFileSize. destruct (Z.ltb_spec (50 * 1024 * 1024) file.2).
    - split; [done|]. intros [[_ ?] _]. lia.
    - split; [|by intros [_ ?]]. intros ?. split_and!; [done|lia|done]. }
  unfold validateFileUpload. destruct files as [[|file l]|].
  - split; [done|]. by intros (l & [= <-] & ? & _).
  - rewrite Hloop. split.
    + intros Hall. by exists (file :: l).
    + by intros (l' & [= <-] & _ & Hall).
  - split; [done|]. by intros (l & ? & _).
Qed.

End UploadProperties.

(** * The worker once it has started *)

Section WorkerStarted.
Context {float : Type} `{JSHost float}.

Implicit Types (w : @Worker.state float) (v : value float).
Implicit Types (code : @Worker.script float) (logs : list Worker.logEntry).

Lemma forEach_set_translation_oc (vector : value float)
  (l : list (value float)) w :
  Worker.oc (Worker.forEach (Worker.set_translation vector) l w).2 = Worker.oc w.
Proof.
  revert w. induction l as [|x l IH]; intros w; [done|].
  cbn [Worker.forEach]. unfold Worker.bind.
  destruct x; cbn; try apply IH; try done.
  by rewrite IH.
Qed.

Lemma invoke_oc (c : @Worker.call float) logs w :
  Worker.oc (Worker.invoke c logs w).2 = Worker.oc w.
Proof.
  destruct c; cbn;
    unfold Worker.Box, Worker.Sphere, Worker.Cylinder, Worker.Union,
      Worker.Difference, Worker.Slider, Worker.Checkbox, Worker.TextInput,
      Worker.Dropdown;
    try first [ done | by destruct (Worker.oc w) eqn:Hoc ].
  - unfold Worker.Translate. destruct shapes; cbn; try done.
    all: unfold Worker.bind.
    all: pose proof (forEach_set_translation_oc vector elems w) as Hl.
    all: by destruct (Worker.forEach _ elems w) as [[[]|] ?].
  - destruct (is_undefined _); [|done]. by destruct (get_member _ _).
Qed.

Lemma call_function_oc code logs w :
  Worker.oc (Worker.call_function code logs w).2 = Worker.oc w.
Proof.
  revert logs w.
  induction code as [result|message|c k IH|identifier k IH]; intros logs w;
    [done..| |].
  - cbn [Worker.call_function].
    pose proof (invoke_oc c logs w) as Hc.
    destruct (Worker.invoke c logs w) as [[[a|e] logs'] w']; cbn in Hc |- *.
    + by rewrite IH.
    + done.
  - cbn [Worker.call_function].
    destruct (Worker.resolve _ identifier); [apply IH|done].
Qed.

Lemma executeCode_oc code (GUIState : option (gmap string (value float))) w :
  Worker.oc (Worker.executeCode code GUIState w).2 = Worker.oc w.
Proof.
  unfold Worker.executeCode. cbn.
  set (w1 := Worker.State _ _ _ _ _).
  pose proof (call_function_oc code [] w1) as Hc.
  by destruct (Worker.call_function code [] w1) as [[[r|e] logs] w2].
Qed.

Lemma on_message_oc now (message : @Worker.request float) w :
  Worker.oc w = true → Worker.oc (Worker.on_message now message w) = true.
Proof.
  intros Hw. destruct message; try done.
  unfold Worker.on_message.
  pose proof (executeCode_oc code GUIState w) as Hc.
  destruct (Worker.executeCode code GUIState w) as [r w'].
  destruct (Worker.clone_failure r w'); cbn in *; congruence.
Qed.

Lemma handled_oc (messages : list (Z * @Worker.request float)) :
  Worker.oc (handled messages) = true.
Proof.
  unfold handled.
  induction messages as [|m messages IH] using rev_ind; [done|].
  rewrite foldl_app. cbn. by apply on_message_oc.
Qed.

(** The call returns a new object, which becomes the last of
    [currentShapes], and leaves the older objects as they were. *)
Definition creates_a_shape (m : Worker.W (value float)) w : Prop :=
  (m w).1 = Normal (VRef (length (Worker.heap w))) ∧
  Worker.currentShapes (m w).2
    = Worker.currentShapes w ++ [length (Worker.heap w)] ∧
  length (Worker.heap (m w).2) = S (length (Worker.heap w)) ∧
  ∀ r, (r < length (Worker.heap w))%nat →
       Worker.heap (m w).2 !! r = Worker.heap w !! r.

(** A started worker stays initialized, whatever messages it handles
    and whatever the scripts do: the module sets [oc] while it loads
    and nothing clears it.  So at no point of a script does one of the
    three primitives raise [OpenCascade not initialized]: each call
    creates its shape. *)
Theorem primitives_succeed_once_started
  (messages : list (Z * @Worker.request float))
  (GUIState : gmap string (value float)) code logs (a b c : value float) :
  let w := (Worker.call_function code logs
              (Worker.createExecutionContext GUIState (handled messages)).2).2 in
  Worker.oc (handled messages) = true ∧
  creates_a_shape (Worker.Box a b c) w ∧
  creates_a_shape (Worker.Sphere a) w ∧
  creates_a_shape (Worker.Cylinder a b) w.
Proof.
  cbn zeta. split; [apply handled_oc|].
  set (w := (Worker.call_function code logs _).2).
  assert (Hoc : Worker.oc w = true).
  { subst w. rewrite call_function_oc. cbn. apply handled_oc. }
  unfold creates_a_shape, Worker.Box, Worker.Sphere, Worker.Cylinder.
  rewrite Hoc. cbn. rewrite !length_app. cbn.
  split_and!; try done; try lia; intros r Hr; by rewrite lookup_app_l.
Qed.

End WorkerStarted.

(** * Translated shapes in the mesh *)

Section TranslationInMesh.
Context {float : Type} `{JSHost float}.

(** A vertex moved by a translation vector, component by component. *)
Definition shifted (t : value float)
  (p : value float * value float * value float)
  : value float * value float * value float :=
  (js_add p.1.1 (element t 0), js_add p.1.2 (element t 1),
   js_add p.2 (element t 2)).

Lemma translate_vertices_flatten (t : value float)
  (vs : list (value float * value float * value float)) :
  Worker.translate_vertices t (flatten vs) = flatten (map (shifted t) vs).
Proof.
  induction vs as [|[[x y] z] vs IH]; [done|].
  rewrite flatten_cons. cbn [map]. rewrite flatten_cons.
  cbn [Worker.translate_vertices fst snd shifted]. by rewrite IH.
Qed.

(** A translation changes the vertices of a shape and nothing else:
    the mesh of a translated shape has the indices and the normals of
    the shape left in place, and its vertices are those of the shape in
    place with the components of the vector added to each, when the
    translation is truthy, and unchanged otherwise -- so a translation
    by [null], by [false] or by the empty string is none, and an array
    shorter than three adds [undefined] to the coordinates it lacks. *)
Theorem translation_moves_vertices_only
  (d : @Worker.shapeData float) (t maxDeviation : value float) :
  ∃ (vs : list (value float * value float * value float))
    (ixs : list Z) (ns : list float),
    Worker.generateMeshData [Worker.Shape d VUndef] maxDeviation
      = MeshData (Some (map to_float32 (flatten vs))) (Some ixs) (Some ns) 1 ∧
    Worker.generateMeshData [Worker.Shape d t] maxDeviation
      = MeshData
          (Some (map to_float32
                   (flatten (if truthy t then map (shifted t) vs else vs))))
          (Some ixs) (Some ns) 1.
Proof.
  unfold Worker.generateMeshData. cbn [fold_left length]. rewrite !add_shape_eq.
  cbn [Worker.all_vertices Worker.all_indices Worker.all_normals app].
  unfold placed. cbn [Worker.translation].
  change (Worker.shape_mesh (Worker.Shape d t))
    with (Worker.shape_mesh (Worker.Shape d VUndef)).
  destruct (shape_mesh_sizes (Worker.Shape d VUndef)) as (Hv & _ & _).
  destruct (flatten_triples _ _ Hv) as [Hflat _].
  exists (triples (Worker.shape_mesh (Worker.Shape d VUndef)).1.1).
  eexists _, _. split.
  - rewrite Hflat. reflexivity.
  - destruct (truthy t).
    + rewrite <- translate_vertices_flatten, Hflat. reflexivity.
    + rewrite Hflat. reflexivity.
Qed.

End TranslationInMesh.

(** * An operation and the worker it started *)

Section OwnMessages.
Context {float : Type} `{JSHost float}.

Implicit Types (sv : @Service.service float) (events : list (@Service.event float)).

(** What a worker posts when its module has loaded. *)
Definition greeting : @Worker.posted float :=
  Worker.PostReady "CascadeStudio worker initialized successfully".

(** From its start to its answer to an evaluation a worker posts its
    greeting and then at least one message more, the first of which is
    a log message of the script or the answer itself; it is no mesh and
    no STEP text. *)
Lemma started_worker_outbox now (code : @Worker.script float)
  (GUIState : option (gmap string (value float))) :
  ∃ second rest,
    Worker.outbox (Worker.on_message now (Worker.Evaluate code GUIState)
                     Worker.started)
      = greeting :: second :: rest ∧
    Service.response_meshData second = None ∧
    Service.response_shapeCount second = None ∧
    Service.response_content second = None ∧
    (is_log second = true → Service.messageHandler second = Normal second).
Proof.
  unfold Worker.on_message.
  pose proof (call_function_outbox code []
                (Worker.createExecutionContext (default ∅ GUIState)
                   Worker.started).2) as (p & Hp & Hl).
  assert (Hout : Worker.outbox (Worker.executeCode code GUIState Worker.started).2
                 = greeting :: p).
  { unfold Worker.executeCode. cbn [Worker.createExecutionContext fst snd] in *.
    by destruct (Worker.call_function code [] _) as [[[r|e] logs] w2]. }
  destruct (Worker.executeCode code GUIState Worker.started) as [result w'].
  cbn [fst snd] in Hout.
  assert (Hlog : ∀ m : @Worker.posted float, is_log m = true →
            Service.response_meshData m = None ∧
            Service.response_shapeCount m = None ∧
            Service.response_content m = None ∧
            (is_log m = true → Service.messageHandler m = Normal m)).
  { by intros []. }
  destruct p as [|m p].
  - destruct (Worker.clone_failure result w') as [e|]; cbn; rewrite Hout;
      eexists _, []; (split; [reflexivity|]); by split_and!.
  - apply Forall_cons in Hl as [Hm _].
    destruct (Worker.clone_failure result w') as [e|]; cbn; rewrite Hout;
      eexists m, _; (split; [reflexivity|]); by apply Hlog.
Qed.

(** An operation takes the first message of its worker for the answer
    to its first request, and the second for the answer to its second.
    When the messages of the worker it started come in the order the
    worker posts them, the first is the greeting and the second a log
    message of the script or the answer to the evaluation.  So an
    import returns on the greeting; [executeScript] returns without
    mesh and without logs, [exportSTEP] returns the second message in
    place of a STEP text, and [exportSTL] and [exportOBJ] throw for
    want of a mesh -- unless the second message carries an error, and
    then all four throw that error.  A log message carries none: once
    the script has used its [console], a fault of the script is not
    reported. *)
Theorem operations_take_the_greeting_for_an_answer
  (code : @Worker.script float) (guiState : option (gmap string (value float)))
  (meshResolution : value float) (filename content uuid : string) sv
  (now : Z) (e1 e2 : @Service.event float) events :
  ∃ second,
    (∃ rest,
       Worker.outbox
         (Worker.on_message now
            (Worker.Evaluate code (Some (default ∅ guiState))) Worker.started)
         = greeting :: second :: rest) ∧
    (is_log second = true → Service.messageHandler second = Normal second) ∧
    (Service.ending e1 = Service.MessageEvent greeting →
     Service.ending e2 = Service.MessageEvent second →
     (Service.importFile filename content uuid (sv, e1 :: e2 :: events)).1
       = Normal (Service.Imported true filename
                   ("Successfully imported " +:+ filename)) ∧
     match Service.messageHandler second with
     | Normal _ =>
         (Service.executeScript code guiState meshResolution uuid
            (sv, e1 :: e2 :: events)).1
           = Normal (Service.ExecutionResult true None []
                       (Service.elapsed e1 + Service.elapsed e2) 0%nat
                       (default ∅ guiState)) ∧
         (Service.exportSTEP code guiState meshResolution uuid
            (sv, e1 :: e2 :: events)).1
           = Normal (Service.Exported _ (inr second) "export.step") ∧
         (Service.exportSTL code guiState meshResolution uuid
            (sv, e1 :: e2 :: events)).1
           = Thrown "Invalid mesh data for STL export" ∧
         (Service.exportOBJ code guiState meshResolution uuid
            (sv, e1 :: e2 :: events)).1
           = Thrown "Invalid mesh data for OBJ export"
     | Thrown m =>
         (Service.executeScript code guiState meshResolution uuid
            (sv, e1 :: e2 :: events)).1 = Thrown m ∧
         (Service.exportSTEP code guiState meshResolution uuid
            (sv, e1 :: e2 :: events)).1 = Thrown m ∧
         (Service.exportSTL code guiState meshResolution uuid
            (sv, e1 :: e2 :: events)).1 = Thrown m ∧
         (Service.exportOBJ code guiState meshResolution uuid
            (sv, e1 :: e2 :: events)).1 = Thrown m
     end).
Proof.
  destruct (started_worker_outbox now code (Some (default ∅ guiState)))
    as (second & rest & Hout & Hmesh & Hcount & Hcontent & Hlog).
  exists second. split; [by exists rest|]. split; [exact Hlog|].
  intros He1 He2. split.
  - unfold Service.importFile, Service.bind, Service.try_finally,
      Service.createWorker, Service.update, Service.sendWorkerMessage,
      Service.ret. cbn [fst snd]. rewrite He1. reflexivity.
  - unfold Service.executeScript, Service.exportSTEP, Service.exportSTL,
      Service.exportOBJ, Service.bind, Service.try_finally,
      Service.createWorker, Service.update, Service.Date_now,
      Service.sendWorkerMessage, Service.ret. cbn [fst snd].
    rewrite He1. cbn [Service.messageHandler Service.response_error greeting].
    cbv beta iota. cbn [fst snd]. rewrite He2.
    destruct (Service.messageHandler second) as [r|m] eqn:Hsecond.
    + assert (r = second) as ->.
      { unfold Service.messageHandler in Hsecond.
        destruct (Service.response_error second) as [e|]; [|congruence].
        destruct (String.eqb e ""); congruence. }
      cbn [fst snd]. rewrite Hmesh, Hcount, Hcontent. cbn.
      split_and!; try reflexivity. do 2 f_equal.
      destruct (Service.cleanup_fired e1), (Service.cleanup_fired e2); cbn;
        unfold Service.terminateWorker; cbn; repeat case_match; cbn; lia.
    + by split_and!.
Qed.

End OwnMessages.

(** * The further properties at work

    As above, on the host [Demo.host]. *)

Section FurtherExamples.
Import Demo.

(** [Box(1, 1, 1); Sphere(2);] evaluated by a started worker. *)
Definition two_shapes : @Worker.state number :=
  (Worker.executeCode
     (Worker.Invoke (Worker.CallBox (num 1) (num 1) (num 1)) (λ _,
      Worker.Invoke (Worker.CallSphere (num 2)) (λ _,
      Worker.Return VUndef)))
     None Worker.started).2.

(** [Translate([1, 2, 3], [box, undefined, sphere])] moves the box,
    throws, and leaves the sphere where it was. *)
Lemma Translate_hole_witness :
  ∃ e w',
    Worker.Translate (VArr [num 1; num 2; num 3])
      (VArr ([VRef 0] ++ VUndef :: [VRef 1])) two_shapes = (Thrown e, w') ∧
    (∀ (r : nat), VRef r ∈ [@VRef number 0] →
       Worker.heap w' !! r
       = moved (VArr [num 1; num 2; num 3]) <$> Worker.heap two_shapes !! r) ∧
    (∀ (r : nat), VRef r ∉ [@VRef number 0] →
       Worker.heap w' !! r = Worker.heap two_shapes !! r) ∧
    Worker.currentShapes w' = Worker.currentShapes two_shapes.
Proof.
  apply Translate_stops_at_first_hole.
  - repeat constructor; discriminate.
  - left. reflexivity.
Defined.

(** Translating both shapes by [[1, 2, 3]] and then by [[4, 5, 6]] is
    translating them by [[4, 5, 6]]. *)
Lemma Translate_twice_witness :
  Worker.Translate (VArr [num 4; num 5; num 6]) (VArr [VRef 0; VRef 1])
    (Worker.Translate (VArr [num 1; num 2; num 3]) (VArr [VRef 0; VRef 1])
       two_shapes).2
  = Worker.Translate (VArr [num 4; num 5; num 6]) (VArr [VRef 0; VRef 1])
      two_shapes.
Proof.
  apply (Translate_last_wins (VArr [num 1; num 2; num 3])
           (VArr [num 4; num 5; num 6]) (VArr [VRef 0; VRef 1])
           (VArr [VRef 0; VRef 1]) two_shapes).
  vm_compute. reflexivity.
Defined.


(** A service with one live worker, shut down. *)
Definition one_worker : @Service.service number :=
  (Service.createWorker "w1" (Service.constructor 0, [])).2.1.

Lemma cleanup_witness :
  Service.cleanup one_worker
    = foldr Service.terminateWorker one_worker ["w1"; "w1"] ∧
  Service.activeWorkers (Service.cleanup one_worker) = ∅ ∧
  (∀ workerId info,
     Service.activeWorkers one_worker !! workerId = Some info →
     Service.worker info ∈ Service.terminated (Service.cleanup one_worker)) ∧
  (∀ workerId,
     Service.terminateWorker workerId (Service.cleanup one_worker)
     = Service.cleanup one_worker).
Proof.
  apply cleanup_terminates_each_worker. intros workerId.
  change (Service.activeWorkers one_worker)
    with (<["w1" := Service.WorkerInfo 0 "w1" 0 false]>
            (∅ : gmap string Service.workerInfo)).
  rewrite lookup_insert_is_Some, lookup_empty, !elem_of_cons, elem_of_nil.
  split.
  - intros [->|[->|[]]]; by left.
  - intros [->|[_ [x Hx]]]; [by left | discriminate].
Defined.

(** The ids [w0], [w1], ... *)
Definition numbered (n : nat) : string := "w" +:+ pretty n.

(** Two files uploaded to a service whose first worker answers and
    whose second does not. *)
Lemma import_route_witness :
  ∃ results (sv' : @Service.service number)
    (events' : list (@Service.event number)),
    Routes.import_route numbered (Some [("a.step", "solid"); ("b.stl", "")])
      (Service.constructor 0,
       [Service.Event 5 false
          (Service.MessageEvent (Worker.PostLoadFiles []))])
      = (Routes.Response 200
           (Routes.ImportBody
              ("Processed " +:+ pretty 2%nat +:+ " file(s)")
              results (succeeded results)),
         (sv', events')) ∧
    entry_filename <$> results = ["a.step"; "b.stl"] ∧
    Forall well_reported results ∧
    Service.threads sv' = 2%nat ∧
    ((∀ n, Service.activeWorkers (@Service.constructor number 0) !! numbered n
           = None) →
     Service.activeWorkers sv' = ∅).
Proof.
  apply (import_route_reports_every_file numbered
           [("a.step", "solid"); ("b.stl", "")] (Service.constructor 0)).
  discriminate.
Defined.

(** [Part.v2.STEP] is let through: in lower case it ends with
    [.step]. *)
Lemma fileFilter_witness :
  Uploads.fileFilter id (Service.of_string "Part.v2.STEP") = Uploads.Next.
Proof.
  apply (fileFilter_accepts_by_suffix id (Service.of_string "Part.v2.STEP")).
  - repeat constructor.
  - exists (Service.of_string ".step"). split.
    + refine (bool_decide_unpack _ _). vm_compute. exact I.
    + exists (Service.of_string "part.v2"). reflexivity.
Defined.

(** The message a worker posts when it has started, followed by the
    answer to the evaluation: [executeScript] returns, without a
    mesh. *)
Lemma executeScript_witness :
  (Service.executeScript sized_box None VUndef "w1"
     (Service.constructor 0,
      [Service.Event 1 false
         (Service.MessageEvent
            (Worker.PostReady "CascadeStudio worker initialized successfully"));
       Service.Event 2 false
         (Service.MessageEvent
            (Worker.PostEvaluate
               (Worker.executeCode sized_box None Worker.started).1))])).1
  = Normal (Service.ExecutionResult true None [] 3 0 ∅).
Proof.
  apply executeScript_returns. eexists _, _, [], _, _.
  split_and!; [reflexivity | reflexivity | | reflexivity | | reflexivity];
    vm_compute; reflexivity.
Defined.

(** An import whose worker answers: the shape is the file. *)
Lemma importFile_witness :
  (Service.importFile "part.step" "solid" "w1"
     (@Service.constructor number 0,
      [Service.Event 5 false
         (Service.MessageEvent
            (Worker.PostLoadFiles
               [Worker.ImportResult "part.step" true "imported_7_part.step"
                  "Successfully imported part.step"]))])).1
  = Normal (Service.Imported true "part.step"
              "Successfully imported part.step").
Proof.
  apply (importFile_returns "part.step" "solid" "w1"
           (@Service.constructor number 0)).
  split; [|reflexivity]. eexists _, [], _.
  split_and!; [reflexivity | reflexivity | vm_compute; reflexivity].
Defined.

(** A script that logs through its [console] and then throws, on the
    messages of its own worker: [executeScript] returns. *)
Lemma fault_after_a_log_witness :
  (Service.executeScript logging_then_throwing None VUndef "w1"
     (Service.constructor 0,
      [Service.Event 1 false (Service.MessageEvent greeting);
       Service.Event 2 false
         (Service.MessageEvent (Worker.PostLog Worker.warn "posted"))])).1
  = Normal (Service.ExecutionResult true None [] 3 0 ∅).
Proof.
  destruct (operations_take_the_greeting_for_an_answer
              logging_then_throwing None VUndef "part.step" "" "w1"
              (Service.constructor 0) 0
              (Service.Event 1 false (Service.MessageEvent greeting))
              (Service.Event 2 false
                 (Service.MessageEvent (Worker.PostLog Worker.warn "posted")))
              [])
    as (second & [rest Hout] & _ & Hops).
  vm_compute in Hout. injection Hout as <- _.
  destruct Hops as [_ Hops]; [reflexivity | reflexivity |].
  exact (proj1 Hops).
Defined.

End FurtherExamples.
